(** * dlab.BEH: the reaction-time cleaning pipeline of [Project.get_RTdata]

    A shallow embedding of [src/dlab/BEH.py], lines 111-283: the three nested
    stage functions [_remove_extremes], [_identify_missing_data] and
    [_filter_outliers] (with its inner [outliers]), and the orchestrating
    method [get_RTdata].

    Modelling conventions.
    - A float is a real number; [None] stands for NaN.  Arithmetic is exact
      (the rounding of binary64 is not modelled); comparisons with NaN are
      false, as in numpy.
    - A pandas DataFrame is a list of column names and a list of typed rows.
      Only the columns that [get_RTdata] reads or writes are represented.
    - DataFrames live in a store and are referred to by address: column
      assignment [df[c] = ...] updates the object in place, while boolean
      indexing [df[mask]], [.loc[:, cols]] and [reset_index()] allocate a new
      object (pandas semantics without copy-on-write, the setting the source
      was written for: it disables the chained-assignment warning).
    - [print] appends an event to an output log; the wording and the
      percentages of the messages are not modelled, the quantities are. *)

From Stdlib Require Import Reals Lra String List ZArith Bool Arith Lia.
Import ListNotations.
Local Open Scope R_scope.

(** ** Floats and comparisons *)

Definition Rlt_b (x y : R) : bool := if Rlt_dec x y then true else false.
Definition Rle_b (x y : R) : bool := if Rle_dec x y then true else false.

(** [NaN]-aware comparisons of a float with a bound: false on NaN. *)
Definition flt (x y : option R) : bool :=
  match x, y with Some a, Some b => Rlt_b a b | _, _ => false end.
Definition fgt (x y : option R) : bool := flt y x.

(** ** Python exceptions and results *)

Inductive exn :=
| ValueError (m : string)
| TypeError (m : string)
| NameError (name : string)
| KeyError (k : string).

Inductive res (A : Type) :=
| Ret (a : A)
| Raise (e : exn).
Arguments Ret {A} a.
Arguments Raise {A} e.

(** ** Data model *)

(** A hashable label: participant, item and word-position identifiers. *)
Inductive key := KInt (z : Z) | KStr (s : string).

Definition key_eqb (a b : key) : bool :=
  match a, b with
  | KInt x, KInt y => Z.eqb x y
  | KStr x, KStr y => String.eqb x y
  | _, _ => false
  end.

(** The categories of [pd.cut(..., labels=['Below','Ok','Above'])]. *)
Inductive Band := Below | Ok | Above.

(** One row of the working table.  [RT] is [None] when the cell is not a
    number; the derived columns are [None] (NaN) until a stage writes them.
    [index] is the row label, [index_col] the column that [reset_index]
    adds. *)
Record Row := mkRow {
  index : nat;
  PPT : key;
  WordPos : key;
  Condition : string;
  Item : key;
  RT : option R;
  RTremove : option Band;
  RTremoveVal : option R;
  RTfiltered_by_ppt_labels : option Band;
  RTfiltered_by_ppt_values : option R;
  RTfiltered_by_item_labels : option Band;
  RTfiltered_by_item_values : option R;
  index_col : option nat
}.

Record DataFrame := mkDF {
  columns : list string;
  rows : list Row
}.

Definition has_column (c : string) (df : DataFrame) : bool :=
  existsb (String.eqb c) (columns df).

(** [df[c] = ...] on the column list: a new name is appended. *)
Definition add_column (c : string) (cs : list string) : list string :=
  if existsb (String.eqb c) cs then cs else cs ++ [c].

(** What the pipeline prints. *)
Inductive msg :=
| PptCount (n : nat)
| ConditionsInFile (conds : list string)
| RecordCount (n : nat)
| ExtremesSummary (below above total : nat)
| ExtremesSkipped
| MissingByPpt (groups : list (key * string * key))
| NoMissingByPpt
| IneligPpts (ppts : list key)
| FillerConditionsDropped (conds : list string)
| NoCriticalAffected
| NoCriticalProvided
| MissingByItem (groups : list (key * string * key))
| StrangeSD
| FilterSummary (by_ppt : bool) (below above total : nat)
| Success.

(** ** [pd.cut] with four bin edges and three labels

    The intervals are right-closed: [(b0,b1]], [(b1,b2]], [(b2,+inf]].  The
    lowest edge is either a number or [-inf]; the highest edge is [+inf] in
    both uses.  Edges that decrease, or repeat, are rejected. *)

Inductive low_edge := NInf | Fin (r : R).

Definition above_edge (b0 : low_edge) (x : R) : bool :=
  match b0 with NInf => true | Fin r => Rlt_b r x end.

Definition edge_le (b0 : low_edge) (x : R) : bool :=
  match b0 with NInf => true | Fin r => Rle_b r x end.

Definition cut_label (b0 : low_edge) (b1 b2 : R) (x : option R) : option Band :=
  match x with
  | None => None
  | Some v =>
      if above_edge b0 v then
        if Rle_b v b1 then Some Below
        else if Rle_b v b2 then Some Ok
        else Some Above
      else None
  end.

Definition cut (xs : list (option R)) (b0 : low_edge) (b1 b2 : R)
  : res (list (option Band)) :=
  if negb (edge_le b0 b1 && Rle_b b1 b2) then
    Raise (ValueError "bins must increase monotonically.")
  else if negb (above_edge b0 b1 && Rlt_b b1 b2) then
    Raise (ValueError "Bin edges must be unique")
  else Ret (map (cut_label b0 b1 b2) xs).

(** ** Stage 1: [_remove_extremes] (lines 125-140) *)

Definition count_band (b : Band) (ls : list (option Band)) : nat :=
  length (filter (fun l => match l, b with
                           | Some Below, Below | Some Ok, Ok | Some Above, Above => true
                           | _, _ => false
                           end) ls).

(** The mask [(df['RT'] < high) & (df['RT'] > low)]. *)
Definition removeExtremes (low high : R) (rt : option R) : bool :=
  flt rt (Some high) && fgt rt (Some low).

Definition set_extremes (r : Row) (lab : option Band) (val : option R) : Row :=
  mkRow (index r) (PPT r) (WordPos r) (Condition r) (Item r) (RT r)
        lab val
        (RTfiltered_by_ppt_labels r) (RTfiltered_by_ppt_values r)
        (RTfiltered_by_item_labels r) (RTfiltered_by_item_values r)
        (index_col r).

Definition extremes_row (low high : R) (r : Row) : Row :=
  set_extremes r
    (cut_label (Fin 0) low high (RT r))
    (if removeExtremes low high (RT r) then RT r else None).

Definition _remove_extremes (df : DataFrame) (low high : R)
  : res (DataFrame * list msg) :=
  match cut (map RT (rows df)) (Fin 0) low high with
  | Raise e => Raise e
  | Ret labels =>
      let df' := mkDF (add_column "RTremoveVal" (add_column "RTremove" (columns df)))
                      (map (extremes_row low high) (rows df)) in
      Ret (df', [ExtremesSummary (count_band Below labels)
                                 (count_band Above labels)
                                 (length (rows df))])
  end.

(** ** Grouped statistics

    [df.groupby([entity, 'Condition', 'WordPos'])]: a group is the rows that
    share a key.  The groups are listed in the order in which their keys
    first occur (pandas lists them sorted; no definition below depends on the
    order). *)

Definition GroupKey : Type := key * string * key.

Definition gkey_eqb (a b : GroupKey) : bool :=
  let '(e1, c1, w1) := a in
  let '(e2, c2, w2) := b in
  key_eqb e1 e2 && String.eqb c1 c2 && key_eqb w1 w2.

Definition ppt_key (r : Row) : GroupKey := (PPT r, Condition r, WordPos r).
Definition item_key (r : Row) : GroupKey := (Item r, Condition r, WordPos r).

Definition entity_of (k : GroupKey) : key := fst (fst k).
Definition condition_of (k : GroupKey) : string := snd (fst k).

(** [Series.unique()]: the distinct values, in order of first occurrence. *)
Fixpoint unique {A : Type} (eqb : A -> A -> bool) (l : list A) : list A :=
  match l with
  | [] => []
  | x :: t => x :: filter (fun y => negb (eqb x y)) (unique eqb t)
  end.

(** [x in l] and [Series.isin(l)]. *)
Definition isin {A : Type} (eqb : A -> A -> bool) (x : A) (l : list A) : bool :=
  existsb (eqb x) l.

Definition group_of (kf : Row -> GroupKey) (k : GroupKey) (rs : list Row) : list Row :=
  filter (fun r => gkey_eqb (kf r) k) rs.

Definition is_nan (x : option R) : bool :=
  match x with None => true | Some _ => false end.

(** Number of values that are not NaN. *)
Definition count (xs : list (option R)) : nat :=
  length (filter (fun x => negb (is_nan x)) xs).

(** Sum that skips NaN. *)
Fixpoint nansum (xs : list (option R)) : R :=
  match xs with
  | [] => 0
  | Some v :: t => v + nansum t
  | None :: t => nansum t
  end.

(** [Series.mean()]: NaN for a group with no value. *)
Definition mean (xs : list (option R)) : option R :=
  match count xs with
  | O => None
  | n => Some (nansum xs / INR n)
  end.

(** [Series.std()], sample standard deviation ([ddof = 1]): NaN when there
    are fewer than two values. *)
Definition std (xs : list (option R)) : option R :=
  let n := count xs in
  if (n <=? 1)%nat then None
  else
    let avg := nansum xs / INR n in
    let sqr := map (option_map (fun v => (avg - v) ^ 2)) xs in
    Some (sqrt (nansum sqr / INR (n - 1))).

(** ** Stage 2: [_identify_missing_data] (lines 142-182) *)

(** [by.mean()[by.mean().isnull().any(axis=1)]]: the keys of the groups in
    which the mean of a numeric column is NaN.  The numeric columns here are
    [RT] and [RTremoveVal]; the categorical [RTremove] has no mean, and an
    item identifier is never NaN. *)
Definition missing (kf : Row -> GroupKey) (rs : list Row) : list GroupKey :=
  filter (fun k =>
            let g := group_of kf k rs in
            is_nan (mean (map RT g)) || is_nan (mean (map RTremoveVal g)))
         (unique gkey_eqb (map kf rs)).

(** [df[~df['PPT'].isin(inelig_ppts)]] and
    [df[~df['Condition'].isin(missing_by_ppt_filler)]]. *)
Definition drop_ppts (inelig_ppts : list key) (df : DataFrame) : DataFrame :=
  mkDF (columns df)
       (filter (fun r => negb (isin key_eqb (PPT r) inelig_ppts)) (rows df)).

Definition drop_conditions (conds : list string) (df : DataFrame) : DataFrame :=
  mkDF (columns df)
       (filter (fun r => negb (isin String.eqb (Condition r) conds)) (rows df)).

(** What a stage hands back: the very object it was given, or a new one
    (boolean indexing allocates). *)
Inductive handed :=
| Same
| New (df : DataFrame).

Definition frame_of (df : DataFrame) (h : handed) : DataFrame :=
  match h with Same => df | New d => d end.

Definition report_by_item (df : DataFrame) : list msg :=
  match missing item_key (rows df) with
  | [] => []
  | ks => [MissingByItem ks]
  end.

Definition _identify_missing_data (critical_conditions : list string) (df : DataFrame)
  : res (handed * list msg) :=
  if negb (has_column "RTremoveVal" df) then Raise (KeyError "RTremoveVal")
  else
    let missing_by_ppt := missing ppt_key (rows df) in
    let '(h, log) :=
      match missing_by_ppt with
      | [] => (Same, [NoMissingByPpt])
      | _ :: _ =>
          match critical_conditions with
          | [] => (Same, [MissingByPpt missing_by_ppt; NoCriticalProvided])
          | _ :: _ =>
              let missing_conditions :=
                unique String.eqb (map condition_of missing_by_ppt) in
              let critical_conditions_in_data :=
                filter (fun c => isin String.eqb c missing_conditions)
                       critical_conditions in
              match critical_conditions_in_data with
              | [] => (Same, [MissingByPpt missing_by_ppt; NoCriticalAffected])
              | _ :: _ =>
                  let missing_by_ppt_crit :=
                    filter (fun k => isin String.eqb (condition_of k)
                                          critical_conditions_in_data)
                           missing_by_ppt in
                  let missing_by_ppt_filler :=
                    unique String.eqb
                      (map condition_of
                         (filter (fun k => negb (isin String.eqb (condition_of k)
                                                      critical_conditions_in_data))
                                 missing_by_ppt)) in
                  let inelig_ppts :=
                    unique key_eqb (map entity_of missing_by_ppt_crit) in
                  let df1 := drop_ppts inelig_ppts df in
                  match missing_by_ppt_filler with
                  | [] => (New df1,
                           [MissingByPpt missing_by_ppt; IneligPpts inelig_ppts])
                  | _ :: _ =>
                      (New (drop_conditions missing_by_ppt_filler df1),
                       [MissingByPpt missing_by_ppt; IneligPpts inelig_ppts;
                        FillerConditionsDropped missing_by_ppt_filler])
                  end
              end
          end
      end in
    Ret (h, log ++ report_by_item (frame_of df h)).

(** ** Stage 3: [_filter_outliers] and its inner [outliers] (lines 184-218) *)

(** Lines 187-190: [mean], [std] with its fallback, and the two bounds.  A
    bound is NaN exactly when the mean is. *)
Definition outliers_bounds (SD : R) (group : list (option R)) : option R * option R :=
  let m := mean group in
  let s := match std group with None => 0.1 | Some s => s end in
  (option_map (fun m => m - SD * s) m, option_map (fun m => m + SD * s) m).

(** Line 191: [group.mask(group < lower, lower).mask(group > upper, upper)];
    both conditions are evaluated on the original value. *)
Definition trim (lower upper : option R) (v : option R) : option R :=
  let t := if flt v lower then lower else v in
  if fgt v upper then upper else t.

Definition outliers_trimmed (SD : R) (group : list (option R)) : list (option R) :=
  let '(lower, upper) := outliers_bounds SD group in
  map (trim lower upper) group.

(** Lines 192-193.  [pd.cut] is given the edges [-inf, lower, upper, inf];
    it rejects them when the bounds coincide or are NaN (two NaN edges count
    as a repeated edge; later pandas versions report them as not increasing,
    with a [ValueError] as well). *)
Definition outliers (SD : R) (group : list (option R))
  : res (list (option Band * option R)) :=
  let '(lower, upper) := outliers_bounds SD group in
  let trimmed := outliers_trimmed SD group in
  match lower, upper with
  | Some lo, Some up =>
      match cut group NInf lo up with
      | Raise e => Raise e
      | Ret labels => Ret (combine labels trimmed)
      end
  | _, _ => Raise (ValueError "Bin edges must be unique")
  end.

(** [groupby(...)['RTremoveVal'].apply(outliers, ...)]: the per-group results,
    each carrying the row labels of its group. *)
Fixpoint apply_outliers (SD : R) (kf : Row -> GroupKey) (rs : list Row)
  (ks : list GroupKey) : res (list (nat * (option Band * option R))) :=
  match ks with
  | [] => Ret []
  | k :: t =>
      let g := group_of kf k rs in
      match outliers SD (map RTremoveVal g) with
      | Raise e => Raise e
      | Ret out =>
          match apply_outliers SD kf rs t with
          | Raise e => Raise e
          | Ret rest => Ret (combine (map index g) out ++ rest)
          end
      end
  end.

(** Assignment aligns on the row label; a label without a result gets NaN.
    Row labels are taken to be distinct, as they are in a table that was
    loaded from a file: the first result with the label is used. *)
Fixpoint at_index (i : nat) (l : list (nat * (option Band * option R)))
  : option Band * option R :=
  match l with
  | [] => (None, None)
  | (j, v) :: t => if Nat.eqb i j then v else at_index i t
  end.

Definition set_by_ppt (r : Row) (v : option Band * option R) : Row :=
  mkRow (index r) (PPT r) (WordPos r) (Condition r) (Item r) (RT r)
        (RTremove r) (RTremoveVal r)
        (fst v) (snd v)
        (RTfiltered_by_item_labels r) (RTfiltered_by_item_values r)
        (index_col r).

Definition set_by_item (r : Row) (v : option Band * option R) : Row :=
  mkRow (index r) (PPT r) (WordPos r) (Condition r) (Item r) (RT r)
        (RTremove r) (RTremoveVal r)
        (RTfiltered_by_ppt_labels r) (RTfiltered_by_ppt_values r)
        (fst v) (snd v)
        (index_col r).

(** One grouping perspective of [_filter_outliers]: the [if ppt:] block or
    the [if items:] block.  On a table without rows there is no group and
    the model assigns two empty columns; what pandas does with an empty
    [apply] result depends on its version and is not modelled. *)
Definition filter_pass (SD : R) (by_ppt : bool) (total : nat) (df : DataFrame)
  : res (DataFrame * list msg) :=
  if negb (has_column "RTremoveVal" df) then Raise (KeyError "RTremoveVal")
  else
    let kf := if by_ppt then ppt_key else item_key in
    match apply_outliers SD kf (rows df) (unique gkey_eqb (map kf (rows df))) with
    | Raise e => Raise e
    | Ret out =>
        let set := if by_ppt then set_by_ppt else set_by_item in
        let names :=
          if by_ppt
          then ("RTfiltered_by_ppt_labels", "RTfiltered_by_ppt_values")%string
          else ("RTfiltered_by_item_labels", "RTfiltered_by_item_values")%string in
        let rows' := map (fun r => set r (at_index (index r) out)) (rows df) in
        let labels :=
          map (if by_ppt then RTfiltered_by_ppt_labels
               else RTfiltered_by_item_labels) rows' in
        Ret (mkDF (add_column (snd names) (add_column (fst names) (columns df))) rows',
             [FilterSummary by_ppt (count_band Below labels)
                            (count_band Above labels) total])
    end.

Definition _filter_outliers (df : DataFrame) (ppt items : bool) (SD : R)
  : res (DataFrame * list msg) :=
  let total := length (rows df) in
  match (if ppt then filter_pass SD true total df else Ret (df, [])) with
  | Raise e => Raise e
  | Ret (df1, log1) =>
      match (if items then filter_pass SD false total df1 else Ret (df1, [])) with
      | Raise e => Raise e
      | Ret (df2, log2) => Ret (df2, log1 ++ log2)
      end
  end.

(** ** The store, the [Project] object and the monad of [get_RTdata] *)

Inductive obj :=
| DF (df : DataFrame)
| NotDF.

(** The attributes of [self] that [get_RTdata] reads or writes; [None] is
    Python's [None], as set by [__init__]. *)
Record Project := mkProject {
  data : nat;
  RTdata : option nat
}.

Record State := mkState {
  heap : list obj;
  self : Project;
  stdout : list msg
}.

(** A computation keeps the state it reached when it raises. *)
Definition M (A : Type) : Type := State -> res A * State.

Definition ret {A : Type} (a : A) : M A := fun s => (Ret a, s).

Definition bind {A B : Type} (m : M A) (f : A -> M B) : M B :=
  fun s => match m s with
           | (Ret a, s') => f a s'
           | (Raise e, s') => (Raise e, s')
           end.

Notation "x <- m ;; k" := (bind m (fun x => k))
  (at level 61, m at next level, right associativity).
Notation "m ;;; k" := (bind m (fun _ => k))
  (at level 61, right associativity).

Definition raise {A : Type} (e : exn) : M A := fun s => (Raise e, s).

Definition lift {A : Type} (r : res A) : M A := fun s => (r, s).

Definition print (ms : list msg) : M unit :=
  fun s => (Ret tt, mkState (heap s) (self s) (stdout s ++ ms)).

Definition alloc (o : obj) : M nat :=
  fun s => (Ret (length (heap s)), mkState (heap s ++ [o]) (self s) (stdout s)).

Definition load (l : nat) : M obj :=
  fun s => (Ret (nth l (heap s) NotDF), s).

Fixpoint update (l : nat) (o : obj) (h : list obj) : list obj :=
  match h, l with
  | [], _ => []
  | _ :: t, O => o :: t
  | x :: t, S n => x :: update n o t
  end.

Definition store (l : nat) (o : obj) : M unit :=
  fun s => (Ret tt, mkState (update l o (heap s)) (self s) (stdout s)).

Definition get_self : M Project := fun s => (Ret (self s), s).

Definition set_RTdata (l : nat) : M unit :=
  fun s => (Ret tt, mkState (heap s) (mkProject (data (self s)) (Some l)) (stdout s)).

(** A stage that assigns columns to the frame it is given: the object at
    [df] is updated in place.  When the stage raises, the working frame is
    unreachable and is left as it was. *)
Definition in_place (f : DataFrame -> res (DataFrame * list msg)) (df : nat) : M nat :=
  o <- load df ;;
  match o with
  | NotDF => raise (TypeError "not a DataFrame")
  | DF d =>
      r <- lift (f d) ;;
      store df (DF (fst r)) ;;;
      print (snd r) ;;;
      ret df
  end.

(** A stage that may hand back a new frame. *)
Definition handing (f : DataFrame -> res (handed * list msg)) (df : nat) : M nat :=
  o <- load df ;;
  match o with
  | NotDF => raise (TypeError "not a DataFrame")
  | DF d =>
      r <- lift (f d) ;;
      print (snd r) ;;;
      match fst r with
      | Same => ret df
      | New d' => alloc (DF d')
      end
  end.

(** ** [get_RTdata] (lines 111-124 and 220-283) *)

(** The arguments, by the distinctions the method makes on them. *)
Inductive item := Str (s : string) | NotStr.

Inductive critical_conditions_arg :=
| CC_list (l : list item)
| CC_not_list.

Inductive remove_extremes_arg :=
| RE_list (l : list R)      (* a list of numbers *)
| RE_falsy                  (* None, False, 0, ... *)
| RE_other.                 (* a true value that is not a list *)

Inductive filter_outliers_arg :=
| FO_number (sd : R)        (* an int or a float *)
| FO_None
| FO_other.

Definition required_columns : list string :=
  ["PPT"; "WordPos"; "Condition"; "Item"; "RT"]%string.

(** Lines 225-228.  The loop body appends [col], a name that is bound
    nowhere: reaching the [append] raises [NameError]. *)
Fixpoint check_columns (cols : list string) (d : DataFrame) (missing : list string)
  : res (list string) :=
  match cols with
  | [] => Ret missing
  | column :: t =>
      if negb (has_column column d) then Raise (NameError "col")
      else check_columns t d missing
  end.

(** Lines 230-231.  The message is built with [join], unbound as well. *)
Definition check_missing (missing : list string) : res unit :=
  match missing with
  | [] => Ret tt
  | _ :: _ => Raise (NameError "join")
  end.

Definition clear_derived (r : Row) : Row :=
  mkRow (index r) (PPT r) (WordPos r) (Condition r) (Item r) (RT r)
        None None None None None None None.

(** Line 233: the rows whose [RT] is a number, restricted to the required
    columns. *)
Definition select (d : DataFrame) : DataFrame :=
  mkDF required_columns
       (map clear_derived (filter (fun r => negb (is_nan (RT r))) (rows d))).

Definition is_str (i : item) : bool :=
  match i with Str _ => true | NotStr => false end.

Fixpoint strings (l : list item) : list string :=
  match l with
  | [] => []
  | Str s :: t => s :: strings t
  | NotStr :: t => strings t
  end.

(** Lines 235-241. *)
Definition check_critical_conditions (cc : critical_conditions_arg) (df : DataFrame)
  : res (list string) :=
  match cc with
  | CC_not_list =>
      Raise (TypeError "Provided critical_conditions object must be of type list.")
  | CC_list l =>
      if negb (forallb is_str l) then
        Raise (TypeError "All conditions in provided critical conditions must be of type string.")
      else if negb (forallb (fun c => isin String.eqb c
                                        (unique String.eqb (map Condition (rows df))))
                            (strings l)) then
        Raise (ValueError "All conditions provided in critical_conditions must be in supplied self.data")
      else Ret (strings l)
  end.

(** Lines 243-255. *)
Definition file_summary (df : DataFrame) : M unit :=
  print [PptCount (length (unique key_eqb (map PPT (rows df))))] ;;;
  let conds := unique String.eqb (map Condition (rows df)) in
  match conds with
  | [] => raise (ValueError "no conds loaded")
  | _ :: _ =>
      print [ConditionsInFile conds] ;;;
      print [RecordCount (length (rows df))]
  end.

(** Lines 257-268. *)
Definition extremes_step (remove_extremes : remove_extremes_arg) (df : nat) : M nat :=
  match remove_extremes with
  | RE_falsy | RE_list [] => print [ExtremesSkipped] ;;; ret df
  | RE_list [low; high] =>
      if Rlt_b low high then in_place (fun d => _remove_extremes d low high) df
      else raise (ValueError "Ensure the provided low value is lower than the provided high value.")
  | RE_list _ => ret df
  | RE_other => raise (TypeError "Provide a list [lower, upper] or None.")
  end.

(** Lines 273-280. *)
Definition outliers_step (filter_outliers : filter_outliers_arg) (df : nat) : M nat :=
  match filter_outliers with
  | FO_number sd =>
      if Rlt_b sd 0 then
        raise (ValueError "SD provided to filter_outliers must be a positive int or float")
      else
        (if Rlt_b sd 1 || Rlt_b 3 sd then print [StrangeSD] else ret tt) ;;;
        in_place (fun d => _filter_outliers d true true sd) df
  | FO_None => ret df
  | FO_other => raise (TypeError "Provide an int or float or None.")
  end.

(** [df.reset_index()]: a new frame whose old labels become the column
    ['index'] and whose labels are the positions. *)
Definition reset_index (df : DataFrame) : DataFrame :=
  mkDF ("index"%string :: columns df)
       (map (fun ir : nat * Row =>
               let (i, r) := ir in
               mkRow i (PPT r) (WordPos r) (Condition r) (Item r) (RT r)
                     (RTremove r) (RTremoveVal r)
                     (RTfiltered_by_ppt_labels r) (RTfiltered_by_ppt_values r)
                     (RTfiltered_by_item_labels r) (RTfiltered_by_item_values r)
                     (Some (index r)))
            (combine (seq 0 (length (rows df))) (rows df))).

Definition get_RTdata
  (critical_conditions : critical_conditions_arg)
  (summarize : bool)
  (remove_extremes : remove_extremes_arg)
  (identify_missing_data : bool)
  (filter_outliers : filter_outliers_arg) : M unit :=
  me <- get_self ;;
  o <- load (data me) ;;
  match o with
  | NotDF =>
      raise (ValueError "There is no data loaded. Load data from a valid source before proceeding.")
  | DF self_data =>
      missing <- lift (check_columns required_columns self_data []) ;;
      lift (check_missing missing) ;;;
      df <- alloc (DF (select self_data)) ;;
      cc <- lift (check_critical_conditions critical_conditions (select self_data)) ;;
      (if summarize then file_summary (select self_data) else ret tt) ;;;
      df <- extremes_step remove_extremes df ;;
      df <- (if identify_missing_data
             then handing (_identify_missing_data cc) df
             else ret df) ;;
      df <- outliers_step filter_outliers df ;;
      o <- load df ;;
      match o with
      | NotDF => raise (TypeError "not a DataFrame")
      | DF d =>
          rt <- alloc (DF (reset_index d)) ;;
          set_RTdata rt ;;;
          print [Success]
      end
  end.

(** ** Auxiliary notions and example data used by the statements below *)

(** The working frame stays at an address that is not below [n]. *)
Definition fresh (n : nat) : nat -> State -> Prop := fun l _ => (n <= l)%nat.

(** A row of the examples: participant, condition, item, word position 1 and
    reaction time, labelled [i]. *)
Definition trial (i : nat) (p : Z) (c : string) (it : Z) (rt : R) : Row :=
  mkRow i (KInt p) (KInt 1) c (KInt it) (Some rt)
        None None None None None None None.

(** The participants and conditions that the policy drops, as the source
    computes them from the missing keys. *)
Definition critical_in_data (cc : list string) (df : DataFrame) : list string :=
  filter (fun c => isin String.eqb c
                     (unique String.eqb (map condition_of (missing ppt_key (rows df)))))
         cc.

Definition ineligible (cc : list string) (df : DataFrame) : list key :=
  unique key_eqb
    (map entity_of
       (filter (fun k => isin String.eqb (condition_of k) (critical_in_data cc df))
               (missing ppt_key (rows df)))).

Definition filler (cc : list string) (df : DataFrame) : list string :=
  unique String.eqb
    (map condition_of
       (filter (fun k => negb (isin String.eqb (condition_of k) (critical_in_data cc df)))
               (missing ppt_key (rows df)))).

(** Rows as the extreme-value filter leaves them: [kept] inside the window,
    [removed] below it. *)
Definition kept (i : nat) (p : Z) (c : string) (it : Z) (rt : R) : Row :=
  set_extremes (trial i p c it rt) (Some Ok) (Some rt).

Definition removed (i : nat) (p : Z) (c : string) (it : Z) (rt : R) : Row :=
  set_extremes (trial i p c it rt) (Some Below) None.

Definition filtered_columns : list string :=
  required_columns ++ ["RTremove"%string; "RTremoveVal"%string].

(** Scenario B: the only record of participant 1 is below the window. *)
Definition scenario_B : DataFrame :=
  mkDF filtered_columns [removed 0 1 "Crit" 1 150].

(** Participant 1 lacks data in the filler condition only. *)
Definition filler_gap : DataFrame :=
  mkDF filtered_columns
       [removed 0 1 "Filler" 1 150; kept 1 1 "Crit" 2 400;
        kept 2 2 "Filler" 1 300; kept 3 2 "Crit" 2 410].

(** Participant 1 lacks data in the critical condition, participant 2 in
    the filler condition. *)
Definition both_gaps : DataFrame :=
  mkDF filtered_columns
       [removed 0 1 "Crit" 1 150; kept 1 1 "Filler" 2 400;
        removed 2 2 "Filler" 2 120; kept 3 2 "Crit" 1 410;
        kept 4 3 "Crit" 1 420; kept 5 3 "Filler" 2 430].

(** Scenario C: one group, multiplier 2. *)
Definition scenario_C : list (option R) :=
  [Some 100; Some 102; Some 104; Some 106; Some 5000].

(** A project whose table has no RT column. *)
Definition no_RT_column : State :=
  mkState [DF (mkDF ["PPT"; "WordPos"; "Condition"; "Item"]%string
                    [trial 0 1 "Crit" 1 300])]
          (mkProject 0 None) [].

(** [s'] keeps the first [n] objects of [s] and the [data] attribute. *)
Definition extends (n : nat) (s s' : State) : Prop :=
  firstn n (heap s') = firstn n (heap s) /\
  (length (heap s) <= length (heap s'))%nat /\
  data (self s') = data (self s).

(** A computation that, started with at least [n] objects in the store,
    keeps the first [n] of them, and whose result and final state satisfy
    [Q] when it returns. *)
Definition safe {A : Type} (n : nat) (m : M A) (Q : A -> State -> Prop) : Prop :=
  forall s r s',
    (n <= length (heap s))%nat -> m s = (r, s') ->
    extends n s s' /\ (n <= length (heap s'))%nat /\
    forall a, r = Ret a -> Q a s'.

(** Scenario A as a project: two records of participant 1 in the critical
    condition, reaction times 180 and 300. *)
Definition scenario_A : State :=
  mkState [DF (mkDF required_columns
                    [trial 0 1 "Crit" 1 180; trial 1 1 "Crit" 1 300])]
          (mkProject 0 None) [].

Definition scenario_A_filtered : DataFrame :=
  mkDF filtered_columns [removed 0 1 "Crit" 1 180; kept 1 1 "Crit" 1 300].

(** What no stage may change in a row: its label, its identifiers and its
    reaction time. *)
Definition identity (r : Row) : nat * key * key * string * key * option R :=
  (index r, PPT r, WordPos r, Condition r, Item r, RT r).

(** What the winsorizer reads and must leave alone: the identity and the
    two columns of the extreme-value filter. *)
Definition filtered (r : Row) : (nat * key * key * string * key * option R)
                                * option Band * option R :=
  (identity r, RTremove r, RTremoveVal r).

(** The two columns of the other grouping perspective. *)
Definition other_perspective (by_ppt : bool) (r : Row) : option Band * option R :=
  if by_ppt
  then (RTfiltered_by_item_labels r, RTfiltered_by_item_values r)
  else (RTfiltered_by_ppt_labels r, RTfiltered_by_ppt_values r).

(** The two columns of a grouping perspective. *)
Definition perspective (by_ppt : bool) (r : Row) : option Band * option R :=
  other_perspective (negb by_ppt) r.

(** A triple for the monad: started in a state that satisfies [P], the
    computation ends in a state that satisfies [Q] when it returns and [E]
    when it raises. *)
Definition hoare {A : Type} (P : State -> Prop) (m : M A)
  (Q : A -> State -> Prop) (E : State -> Prop) : Prop :=
  forall s r s', P s -> m s = (r, s') ->
                 match r with Ret a => Q a s' | Raise _ => E s' end.

(** The object at address [l] is a table that satisfies [I]. *)
Definition frame_at (I : DataFrame -> Prop) (l : nat) (s : State) : Prop :=
  exists d, nth l (heap s) NotDF = DF d /\ I d.

(** Every row of [d] stems from a row of [d0] whose reaction time is a
    number, with the same label, identifiers and reaction time. *)
Definition derived (d0 d : DataFrame) : Prop :=
  forall r, In r (rows d) ->
            exists r0, In r0 (rows d0) /\ RT r0 <> None /\ identity r = identity r0.

(** The values of [remove_extremes] with which the extreme-value filter is
    not run and nothing is raised: a false value, or a list whose length is
    not 2. *)
Definition skips_extremes (re : remove_extremes_arg) : Prop :=
  match re with
  | RE_falsy => True
  | RE_list [_; _] => False
  | RE_list _ => True
  | RE_other => False
  end.

(** [RTdata] refers to the re-indexed copy of a table derived from [d0]. *)
Definition published (d0 : DataFrame) (s : State) : Prop :=
  exists rt d,
    RTdata (self s) = Some rt /\
    nth rt (heap s) NotDF = DF (reset_index d) /\
    derived d0 d.

(** The steps before the final assignment keep [self]. *)
Definition keeps_self {A : Type} (p : Project) (m : M A) : Prop :=
  hoare (fun s => self s = p) m (fun _ s => self s = p) (fun s => self s = p).

(** ** [get_conditions] (lines 584-597) *)

(** [condition in self.data['Condition'].unique()]: only a string can be
    a condition of the table. *)
Definition is_condition (d : DataFrame) (i : item) : bool :=
  match i with
  | Str c => isin String.eqb c (unique String.eqb (map Condition (rows d)))
  | NotStr => false
  end.

(** [self.data[self.data['Condition'].isin(conditions)]]. *)
Definition with_conditions (l : list item) (d : DataFrame) : DataFrame :=
  mkDF (columns d)
       (filter (fun r => isin String.eqb (Condition r) (strings l)) (rows d)).

(** Subscripting [self.data]: the table, when it is one and has the
    column. *)
Definition data_with_column (c : string) : M DataFrame :=
  me <- get_self ;;
  o <- load (data me) ;;
  match o with
  | NotDF => raise (TypeError "object is not subscriptable")
  | DF d => if has_column c d then ret d else raise (KeyError c)
  end.

(** The argument is the list of conditions, or something that is not a
    list.  [any] over an empty list does not look at the table. *)
Definition get_conditions (conditions : critical_conditions_arg) : M nat :=
  match conditions with
  | CC_not_list =>
      raise (TypeError "Provided conditions object is invalid. Provide a list.")
  | CC_list l =>
      (match l with
       | [] => ret tt
       | _ :: _ =>
           d <- data_with_column "Condition" ;;
           if negb (forallb (is_condition d) l)
           then raise (ValueError "One of the provided conditions is invalid.")
           else ret tt
       end) ;;;
      d <- data_with_column "Condition" ;;
      alloc (DF (with_conditions l d))
  end.

(** ** The properties [ppts] and [N] and the setter of [ppts]
       (lines 599-626) *)

Definition ppts : M (list key) :=
  d <- data_with_column "PPT" ;;
  ret (unique key_eqb (map PPT (rows d))).

Definition N : M nat :=
  l <- ppts ;;
  ret (length l).

Inductive ppts_arg :=
| PL_list (l : list key)
| PL_not_list.

(** [self.data[self.data['PPT'].isin(input_ppts)]]. *)
Definition with_ppts (l : list key) (d : DataFrame) : DataFrame :=
  mkDF (columns d) (filter (fun r => isin key_eqb (PPT r) l) (rows d)).

Definition set_data (l : nat) : M unit :=
  fun s => (Ret tt, mkState (heap s) (mkProject l (RTdata (self s))) (stdout s)).

(** [any(ppt not in self.ppts for ppt in input_ppts)]: the property is
    read once per element, up to the first one that is not found. *)
Fixpoint any_not_in_ppts (l : list key) : M bool :=
  match l with
  | [] => ret false
  | x :: t =>
      ps <- ppts ;;
      if negb (isin key_eqb x ps) then ret true else any_not_in_ppts t
  end.

Definition set_ppts (input_ppts : ppts_arg) : M unit :=
  match input_ppts with
  | PL_not_list => raise (TypeError "Ensure you are providing a list of ppts.")
  | PL_list l =>
      bad <- any_not_in_ppts l ;;
      if bad
      then raise (ValueError "One of the provided ppts is not in self.data")
      else
        d <- data_with_column "PPT" ;;
        new <- alloc (DF (with_ppts l d)) ;;
        set_data new
  end.

(** ** [plot_config.__init__] (lines 678-711) *)

(** An argument that should be a list: a list of items, or something
    else. *)
Definition list_arg : Type := critical_conditions_arg.

(** An argument that should be a dict from word positions to words. *)
Inductive words_arg :=
| W_dict (w : list (Z * string))
| W_not_dict.

Module plot_config.

Record t := mk {
  conds : list string;
  words : list (Z * string);
  c : list string;
  fmt : list string
}.

Definition __init__ (conds : list_arg) (words : words_arg) (c fmt : list_arg) : res t :=
  match conds with
  | CC_not_list => Raise (TypeError "conds must be a list.")
  | CC_list lconds =>
      if negb (forallb is_str lconds) then
        Raise (TypeError "All conds provided must be strings representing condiitons.")
      else
        match words with
        | W_not_dict => Raise (TypeError "words must be a dict.")
        | W_dict w =>
            match c with
            | CC_not_list => Raise (TypeError "c must be of type list")
            | CC_list lc =>
                if negb (forallb is_str lc) then
                  Raise (TypeError "all colours provided in c must be strings")
                else if negb (length lc =? length lconds)%nat then
                  Raise (ValueError "c and conds must be of same length.")
                else
                  match fmt with
                  | CC_not_list => Raise (TypeError "fmt must be of type list")
                  | CC_list lfmt =>
                      if negb (forallb is_str lfmt) then
                        Raise (TypeError "all marker styles provided in fmt must be strings")
                      else if negb (length lfmt =? length lconds)%nat then
                        Raise (ValueError "fmt and conds must be of same length.")
                      else Ret (mk (strings lconds) w (strings lc) (strings lfmt))
                  end
            end
        end
  end.

End plot_config.

(** ** The argument checks of [_plot_reading_times] (lines 358-398)

    The rest of the method computes the means and draws them with
    matplotlib; it is not modelled, and neither is the progress message of
    line 362.  The lists [c] and [fmt] are extended in place, so the checks
    hand back their final contents whether they return or raise. *)

Definition default_colours : list string :=
  ["red"; "maroon"; "yellow"; "olive"; "lime"; "green"; "aqua"; "teal"; "blue"]%string.

(** Lines 379-384: [defaults] is what is left of [default_colours] from
    position [i] on. *)
Fixpoint fill_colours (n : nat) (defaults : list string) (c : list item)
  : res unit * list item :=
  match defaults with
  | [] =>
      if (length c <? n)%nat
      then (Raise (ValueError "Too many conds and not enough colours were provided."), c)
      else (Ret tt, c)
  | x :: rest =>
      if (length c <? n)%nat then fill_colours n rest (c ++ [Str x])
      else (Ret tt, c)
  end.

(** Lines 391-392: at most [n] rounds are needed, each one appends. *)
Fixpoint fill_fmt (rounds n : nat) (fmt : list item) : list item :=
  match rounds with
  | O => fmt
  | S k =>
      if (length fmt <? n)%nat then fill_fmt k n (fmt ++ [Str "."]) else fmt
  end.

(** [word in self.RTdata['WordPos']]: membership in a Series tests its row
    labels, not its values. *)
Definition in_labels (d : DataFrame) (word : Z) : bool :=
  existsb (fun r => Z.eqb (Z.of_nat (index r)) word) (rows d).

Definition list_length (a : list_arg) : nat :=
  match a with CC_list l => length l | CC_not_list => O end.

Definition _plot_reading_times_checks (RTdata : obj) (by_ : string)
  (conds : list_arg) (words : words_arg) (c fmt : list_arg)
  : res unit * (list_arg * list_arg) :=
  match RTdata with
  | NotDF => (Raise (ValueError "Ensure that data has been loaded and filtered."), (c, fmt))
  | DF d =>
      if negb (String.eqb by_ "PPT" || String.eqb by_ "Item") then
        (Raise (ValueError "Provided by is invalid. Please provide 'PPT' or 'item'"), (c, fmt))
      else
        match conds with
        | CC_not_list => (Raise (TypeError "Provide a list of conditions."), (c, fmt))
        | CC_list lconds =>
            match words with
            | W_not_dict => (Raise (TypeError "The provided words is invalid."), (c, fmt))
            | W_dict w =>
                if negb (forallb (fun kv => in_labels d (fst kv)) w) then
                  (Raise (ValueError "One of the provided word keys is not in self.RTdata."),
                   (c, fmt))
                else
                  match c with
                  | CC_not_list =>
                      (Raise (TypeError "Provided c is invalid. provide a list of colours"),
                       (c, fmt))
                  | CC_list lc =>
                      if negb (forallb is_str lc) then
                        (Raise (TypeError "Ensure that all colours in c are strings."),
                         (c, fmt))
                      else
                        match fill_colours (length lconds) default_colours lc with
                        | (Raise e, lc') => (Raise e, (CC_list lc', fmt))
                        | (Ret _, lc') =>
                            match fmt with
                            | CC_not_list =>
                                (Raise (TypeError "Provided fmt is invalid."),
                                 (CC_list lc', fmt))
                            | CC_list lfmt =>
                                if negb (forallb is_str lfmt) then
                                  (Raise (TypeError "Ensure fmt is a list of valid strings"),
                                   (CC_list lc', fmt))
                                else
                                  let lfmt' :=
                                    fill_fmt (length lconds) (length lconds) lfmt in
                                  if negb (forallb (is_condition d) lconds) then
                                    (Raise (ValueError "Could not find the provided condition"),
                                     (CC_list lc', CC_list lfmt'))
                                  else (Ret tt, (CC_list lc', CC_list lfmt'))
                            end
                        end
                  end
            end
        end
  end.

(** Two records of participant 1 in one condition and word position, with
    the same reaction time. *)
Definition equal_pair : DataFrame :=
  mkDF filtered_columns [kept 0 1 "Crit" 1 300; kept 1 1 "Crit" 2 300].

(** * Properties *)

(** ** Comparisons and keys *)

Lemma Rlt_b_true x y : Rlt_b x y = true <-> x < y.
Proof. unfold Rlt_b; destruct (Rlt_dec x y); split; intros; auto; discriminate || lra. Qed.

Lemma Rlt_b_false x y : Rlt_b x y = false <-> y <= x.
Proof. unfold Rlt_b; destruct (Rlt_dec x y); split; intros; auto; discriminate || lra. Qed.

Lemma Rle_b_true x y : Rle_b x y = true <-> x <= y.
Proof. unfold Rle_b; destruct (Rle_dec x y); split; intros; auto; discriminate || lra. Qed.

Lemma Rle_b_false x y : Rle_b x y = false <-> y < x.
Proof. unfold Rle_b; destruct (Rle_dec x y); split; intros; auto; discriminate || lra. Qed.

(** Settles the real comparisons of a goal by [lra]. *)
Ltac rdec :=
  unfold Rlt_b, Rle_b in *;
  repeat match goal with
  | |- context [Rlt_dec ?a ?b] => destruct (Rlt_dec a b); try lra
  | |- context [Rle_dec ?a ?b] => destruct (Rle_dec a b); try lra
  end.

Lemma key_eqb_eq a b : key_eqb a b = true <-> a = b.
Proof.
  destruct a, b; simpl; split; intros H; try discriminate; try congruence.
  - apply Z.eqb_eq in H; congruence.
  - injection H as ->; apply Z.eqb_refl.
  - apply String.eqb_eq in H; congruence.
  - injection H as ->; apply String.eqb_refl.
Qed.

Lemma gkey_eqb_eq a b : gkey_eqb a b = true <-> a = b.
Proof.
  destruct a as [[e1 c1] w1], b as [[e2 c2] w2]; simpl.
  rewrite !andb_true_iff, !key_eqb_eq, String.eqb_eq.
  split; [intros [[-> ->] ->]; reflexivity | intros H; injection H; auto].
Qed.

(** ** Stage 1: the extreme-value filter *)

Lemma cut_accepts xs b1 b2 :
  0 < b1 -> b1 < b2 ->
  cut xs (Fin 0) b1 b2 = Ret (map (cut_label (Fin 0) b1 b2) xs).
Proof. intros H1 H2; unfold cut; simpl; rdec; reflexivity. Qed.

(** With a lowest edge that is not below [low], [pd.cut] rejects the bins:
    the filter needs [0 < low]. *)
Lemma remove_extremes_rejects df low high :
  low <= 0 -> exists m, _remove_extremes df low high = Raise (ValueError m).
Proof.
  intros H; unfold _remove_extremes, cut; simpl.
  unfold Rle_b at 1; destruct (Rle_dec 0 low); simpl.
  - unfold Rle_b; destruct (Rle_dec low high); simpl.
    + unfold Rlt_b; destruct (Rlt_dec 0 low); [lra | simpl; eauto].
    + eauto.
  - eauto.
Qed.

Lemma remove_extremes_accepts df low high :
  0 < low -> low < high ->
  exists log,
    _remove_extremes df low high =
    Ret (mkDF (add_column "RTremoveVal" (add_column "RTremove" (columns df)))
              (map (extremes_row low high) (rows df)), log).
Proof.
  intros H1 H2; unfold _remove_extremes.
  rewrite cut_accepts by assumption; eauto.
Qed.

(** The value kept by the mask lies strictly inside the window and carries
    the label [Ok]. *)
Lemma extremes_value_defined low high r v :
  0 < low ->
  RTremoveVal (extremes_row low high r) = Some v ->
  RT r = Some v /\ low < v < high /\ RTremove (extremes_row low high r) = Some Ok.
Proof.
  intros Hl; unfold extremes_row; simpl.
  unfold removeExtremes, fgt, flt, cut_label.
  destruct (RT r) as [x|]; simpl; [|discriminate].
  destruct (Rlt_b x high) eqn:E1; simpl; [|discriminate].
  destruct (Rlt_b low x) eqn:E2; simpl; [|discriminate].
  intros [= ->].
  apply Rlt_b_true in E1, E2.
  repeat split; try lra.
  rdec; reflexivity.
Qed.

(** A label [Ok] comes with a value, except on the upper edge. *)
Lemma extremes_label_ok low high r :
  RTremove (extremes_row low high r) = Some Ok ->
  exists x, RT r = Some x /\ low < x <= high /\
            (x < high -> RTremoveVal (extremes_row low high r) = Some x) /\
            (x = high -> RTremoveVal (extremes_row low high r) = None).
Proof.
  unfold extremes_row; simpl.
  unfold removeExtremes, fgt, flt, cut_label.
  destruct (RT r) as [x|]; simpl; [|discriminate].
  destruct (Rlt_b 0 x); [|discriminate].
  destruct (Rle_b x low) eqn:E1; [discriminate|].
  destruct (Rle_b x high) eqn:E2; [|discriminate].
  intros _; exists x.
  apply Rle_b_false in E1; apply Rle_b_true in E2.
  repeat split; try lra; intros; rdec; reflexivity.
Qed.

(** C5 (evaluation at the failing input).  With the default window
    [(200, 5000)], a record whose reaction time is exactly 5000 is labelled
    [Ok] by the extreme-value filter while its filtered value [RTremoveVal]
    is undefined: the label and the mask disagree on the upper edge. *)
Theorem remove_extremes_ok_without_value :
  exists out log,
    _remove_extremes (mkDF required_columns [trial 0 1 "Crit" 1 5000]) 200 5000
      = Ret (out, log) /\
    map RTremove (rows out) = [Some Ok] /\
    map RTremoveVal (rows out) = [None].
Proof.
  destruct (remove_extremes_accepts
              (mkDF required_columns [trial 0 1 "Crit" 1 5000]) 200 5000)
    as [log E]; try lra.
  do 2 eexists; split; [exact E|].
  simpl; unfold extremes_row, removeExtremes, fgt, flt, cut_label; simpl.
  split; rdec; reflexivity.
Qed.

(** C6 (counterexample).  With the window [(200, 5000)] a record whose
    reaction time is 0, which is not above [low], receives no band at all
    instead of [Below]. *)
Lemma remove_extremes_zero_unlabelled :
  200 < 5000 /\ 0 <= 200 /\
  exists out log,
    _remove_extremes (mkDF required_columns [trial 0 1 "Crit" 1 0]) 200 5000
      = Ret (out, log) /\
    map RTremove (rows out) = [None] /\
    map RTremove (rows out) <> [Some Below].
Proof.
  split; [lra|]; split; [lra|].
  destruct (remove_extremes_accepts
              (mkDF required_columns [trial 0 1 "Crit" 1 0]) 200 5000)
    as [log E]; try lra.
  do 2 eexists; split; [exact E|].
  simpl; unfold extremes_row, cut_label; simpl.
  split; rdec; [reflexivity | discriminate].
Qed.

(** C6 (amended).  For every window with [0 < low < high] the filter returns
    a table with one row per input row, and a record with numeric reaction
    time [x] is labelled [Below] when [0 < x <= low], [Ok] when
    [low < x < high], [Above] when [high < x], and gets no label when
    [x <= 0]. *)
Theorem remove_extremes_bands df low high :
  0 < low -> low < high ->
  exists out log,
    _remove_extremes df low high = Ret (out, log) /\
    length (rows out) = length (rows df) /\
    forall i r x,
      nth_error (rows df) i = Some r -> RT r = Some x ->
      exists r',
        nth_error (rows out) i = Some r' /\
        (0 < x <= low -> RTremove r' = Some Below) /\
        (low < x < high -> RTremove r' = Some Ok) /\
        (high < x -> RTremove r' = Some Above) /\
        (x <= 0 -> RTremove r' = None).
Proof.
  intros H1 H2.
  destruct (remove_extremes_accepts df low high H1 H2) as [log E].
  do 2 eexists; split; [exact E|]; simpl.
  split; [apply length_map|].
  intros i r x Hi Hx.
  exists (extremes_row low high r); split.
  - rewrite nth_error_map, Hi; reflexivity.
  - unfold extremes_row; simpl; rewrite Hx; unfold cut_label; simpl.
    repeat split; intros; rdec; reflexivity.
Qed.

Lemma remove_extremes_bands_witness :
  exists out log,
    _remove_extremes (mkDF required_columns
                        [trial 0 1 "Crit" 1 180; trial 1 1 "Crit" 1 300]) 200 5000
      = Ret (out, log) /\
    length (rows out) = 2%nat.
Proof.
  destruct (remove_extremes_bands
              (mkDF required_columns
                 [trial 0 1 "Crit" 1 180; trial 1 1 "Crit" 1 300]) 200 5000)
    as (out & log & E & L & _); [lra | lra |].
  exists out, log; split; [exact E | exact L].
Defined.

(** ** Distinct values and membership *)

Section Unique.
Context {A : Type} (eqb : A -> A -> bool).
Hypothesis eqb_eq : forall x y, eqb x y = true <-> x = y.

Lemma isin_In x l : isin eqb x l = true <-> In x l.
Proof.
  unfold isin; rewrite existsb_exists; split.
  - intros (y & Hy & E); apply eqb_eq in E; subst; assumption.
  - intros H; exists x; split; [assumption | now apply eqb_eq].
Qed.

Lemma isin_not_In x l : isin eqb x l = false <-> ~ In x l.
Proof.
  rewrite <- isin_In; destruct (isin eqb x l); split; congruence.
Qed.

Lemma unique_In x l : In x (unique eqb l) <-> In x l.
Proof.
  induction l as [|a t IH]; simpl; [tauto|].
  rewrite filter_In, IH; split.
  - intros [H | [H _]]; auto.
  - intros [H | H]; [auto|].
    destruct (eqb a x) eqn:E.
    + left; now apply eqb_eq.
    + right; split; [assumption | reflexivity].
Qed.
End Unique.

Lemma str_In x l : isin String.eqb x l = true <-> In x l.
Proof. apply isin_In, String.eqb_eq. Qed.

Lemma str_not_In x l : isin String.eqb x l = false <-> ~ In x l.
Proof. apply isin_not_In, String.eqb_eq. Qed.

Lemma key_not_In x l : isin key_eqb x l = false <-> ~ In x l.
Proof. apply isin_not_In, key_eqb_eq. Qed.

(** ** Means and missing groups *)

Lemma count_zero xs : count xs = 0%nat <-> forall x, In x xs -> x = None.
Proof.
  unfold count; induction xs as [|[v|] t IH]; simpl.
  - split; [intros _ x [] | reflexivity].
  - split; [discriminate | intros H; specialize (H (Some v) (or_introl eq_refl)); discriminate].
  - rewrite IH; split; intros H x.
    + intros [<- | Hx]; auto.
    + intros Hx; apply H; auto.
Qed.

Lemma mean_nan xs : mean xs = None <-> forall x, In x xs -> x = None.
Proof.
  rewrite <- count_zero; unfold mean.
  destruct (count xs); split; intros; congruence.
Qed.

Lemma is_nan_true x : is_nan x = true <-> x = None.
Proof. destruct x; simpl; split; congruence. Qed.

(** A key is missing when it is the key of some row and one of the two
    numeric columns has no value in its whole group. *)
Lemma missing_In kf rs k :
  In k (missing kf rs) <->
  (exists r, In r rs /\ kf r = k) /\
  ((forall r, In r rs -> kf r = k -> RT r = None) \/
   (forall r, In r rs -> kf r = k -> RTremoveVal r = None)).
Proof.
  unfold missing; rewrite filter_In, (unique_In _ gkey_eqb_eq), in_map_iff.
  rewrite orb_true_iff, !is_nan_true, !mean_nan.
  assert (G : forall (f : Row -> option R),
             (forall x, In x (map f (group_of kf k rs)) -> x = None) <->
             (forall r, In r rs -> kf r = k -> f r = None)).
  { intros f; split.
    - intros H r Hr Hk; apply H, in_map, filter_In; split; [assumption|].
      now apply gkey_eqb_eq.
    - intros H x Hx; apply in_map_iff in Hx as (r & <- & Hr).
      apply filter_In in Hr as [Hr Hk]; apply gkey_eqb_eq in Hk; auto. }
  rewrite !G; split.
  - intros [(r & E & Hr) H]; split; eauto.
  - intros [(r & Hr & E) H]; split; eauto.
Qed.

(** ** Stage 2: missing-data detection *)

Lemma rows_drop_ppts inelig df r :
  In r (rows (drop_ppts inelig df)) <-> In r (rows df) /\ ~ In (PPT r) inelig.
Proof.
  unfold drop_ppts; simpl; rewrite filter_In, negb_true_iff, key_not_In; tauto.
Qed.

Lemma rows_drop_conditions conds df r :
  In r (rows (drop_conditions conds df)) <->
  In r (rows df) /\ ~ In (Condition r) conds.
Proof.
  unfold drop_conditions; simpl; rewrite filter_In, negb_true_iff, str_not_In; tauto.
Qed.

Lemma critical_in_data_In cc df c :
  In c (critical_in_data cc df) <->
  In c cc /\ exists k, In k (missing ppt_key (rows df)) /\ condition_of k = c.
Proof.
  unfold critical_in_data.
  rewrite filter_In, str_In, (unique_In _ String.eqb_eq), in_map_iff.
  split; intros [H (k & H1 & H2)]; split; eauto.
Qed.

Lemma ineligible_In cc df p :
  In p (ineligible cc df) <->
  exists k, In k (missing ppt_key (rows df)) /\ In (condition_of k) cc /\ entity_of k = p.
Proof.
  unfold ineligible.
  rewrite (unique_In _ key_eqb_eq), in_map_iff; split.
  - intros (k & E & Hk); apply filter_In in Hk as [Hk Hc].
    apply str_In, critical_in_data_In in Hc as [Hc _]; eauto.
  - intros (k & Hk & Hc & E); exists k; split; [assumption|].
    apply filter_In; split; [assumption|].
    apply str_In, critical_in_data_In; eauto.
Qed.

Lemma filler_In cc df c :
  In c (filler cc df) <->
  ~ In c cc /\ exists k, In k (missing ppt_key (rows df)) /\ condition_of k = c.
Proof.
  unfold filler.
  rewrite (unique_In _ String.eqb_eq), in_map_iff; split.
  - intros (k & E & Hk); apply filter_In in Hk as [Hk Hc].
    apply negb_true_iff, str_not_In in Hc; split; [|eauto].
    intros Hcc; apply Hc, critical_in_data_In; subst; eauto.
  - intros [Hn (k & Hk & E)]; exists k; split; [assumption|].
    apply filter_In; split; [assumption|].
    apply negb_true_iff, str_not_In; intros Hc.
    apply critical_in_data_In in Hc as [Hc _]; subst; auto.
Qed.

(** The stage when a missing key belongs to a critical condition: the
    ineligible participants go, and so do the filler conditions. *)
Lemma identify_missing_data_drops cc df :
  has_column "RTremoveVal" df = true ->
  (exists k, In k (missing ppt_key (rows df)) /\ In (condition_of k) cc) ->
  exists h log,
    _identify_missing_data cc df = Ret (h, log) /\
    forall r, In r (rows (frame_of df h)) <->
              In r (rows df) /\ ~ In (PPT r) (ineligible cc df) /\
              ~ In (Condition r) (filler cc df).
Proof.
  intros Hc (k & Hk & Hcc).
  unfold _identify_missing_data; rewrite Hc; simpl negb; cbv iota.
  destruct (missing ppt_key (rows df)) as [|k0 ks] eqn:Em; [destruct Hk|].
  destruct cc as [|c0 cs] eqn:Ecc; [destruct Hcc|].
  rewrite <- Ecc, <- Em in *.
  fold (critical_in_data cc df).
  assert (Hne : In (condition_of k) (critical_in_data cc df))
    by (apply critical_in_data_In; eauto).
  destruct (critical_in_data cc df) as [|c1 cs1] eqn:Ecd; [destruct Hne|].
  rewrite <- Ecd in *.
  fold (ineligible cc df); fold (filler cc df).
  destruct (filler cc df) as [|f fs] eqn:Ef.
  - do 2 eexists; split; [reflexivity|]; simpl frame_of.
    intros r; rewrite rows_drop_ppts; simpl; tauto.
  - rewrite <- Ef.
    do 2 eexists; split; [reflexivity|]; simpl frame_of.
    intros r; rewrite rows_drop_conditions, rows_drop_ppts; tauto.
Qed.

(** C1.  If a critical condition [C] has at least one record of participant
    [P] and none of [P]'s records in [C] has a filtered value, the
    missing-data stage returns a table in which no row has participant
    [P], whatever its condition. *)
Theorem missing_critical_excludes_participant cc df P C :
  has_column "RTremoveVal" df = true ->
  In C cc ->
  (exists r, In r (rows df) /\ PPT r = P /\ Condition r = C) ->
  (forall r, In r (rows df) -> PPT r = P -> Condition r = C ->
             RTremoveVal r = None) ->
  exists h log,
    _identify_missing_data cc df = Ret (h, log) /\
    forall r, In r (rows (frame_of df h)) -> PPT r <> P.
Proof.
  intros Hcol HC (r0 & Hr0 & HP & HCr) Hnone.
  assert (Hk : In (ppt_key r0) (missing ppt_key (rows df))).
  { apply missing_In; split; [eauto|]; right.
    intros r Hr E; unfold ppt_key in E; injection E as E1 E2 E3.
    apply Hnone; congruence. }
  destruct (identify_missing_data_drops cc df Hcol) as (h & log & E & Hrows).
  { exists (ppt_key r0); split; [assumption|].
    unfold ppt_key, condition_of; simpl; congruence. }
  exists h, log; split; [assumption|].
  intros r Hr Heq; apply Hrows in Hr as (_ & Hn & _); apply Hn.
  apply ineligible_In; exists (ppt_key r0); repeat split; try assumption.
  - unfold ppt_key, condition_of; simpl; congruence.
  - unfold ppt_key, entity_of; simpl; congruence.
Qed.

Lemma missing_critical_excludes_participant_witness :
  exists h log,
    _identify_missing_data ["Crit"%string] scenario_B = Ret (h, log) /\
    forall r, In r (rows (frame_of scenario_B h)) -> PPT r <> KInt 1.
Proof.
  apply (missing_critical_excludes_participant
           ["Crit"%string] scenario_B (KInt 1) "Crit"%string).
  - reflexivity.
  - simpl; auto.
  - eexists; split; [left; reflexivity | split; reflexivity].
  - intros r [<- | []] _ _; reflexivity.
Defined.

(** C4 (counterexample).  The critical condition is complete and only the
    filler condition has a missing group: the stage hands back the table it
    was given, so the records of the filler condition are still there. *)
Lemma filler_gap_keeps_filler :
  In (KInt 1, "Filler"%string, KInt 1) (missing ppt_key (rows filler_gap)) /\
  ~ In "Filler"%string ["Crit"%string] /\
  (exists log, _identify_missing_data ["Crit"%string] filler_gap = Ret (Same, log)) /\
  exists r, In r (rows (frame_of filler_gap Same)) /\ Condition r = "Filler"%string.
Proof.
  split; [left; reflexivity|].
  split; [intros [H | []]; discriminate|].
  split; [eexists; reflexivity|].
  eexists; split; [left; reflexivity | reflexivity].
Qed.

(** C4 (amended).  When at least one missing group belongs to a critical
    condition, every condition that has a missing group and is not critical
    is removed from the output for all participants. *)
Theorem filler_conditions_dropped cc df c :
  has_column "RTremoveVal" df = true ->
  (exists k, In k (missing ppt_key (rows df)) /\ In (condition_of k) cc) ->
  (exists k, In k (missing ppt_key (rows df)) /\ condition_of k = c) ->
  ~ In c cc ->
  exists h log,
    _identify_missing_data cc df = Ret (h, log) /\
    forall r, In r (rows (frame_of df h)) -> Condition r <> c.
Proof.
  intros Hcol Hcrit Hc Hn.
  destruct (identify_missing_data_drops cc df Hcol Hcrit) as (h & log & E & Hrows).
  exists h, log; split; [assumption|].
  intros r Hr Heq; apply Hrows in Hr as (_ & _ & Hf); apply Hf.
  rewrite Heq; apply filler_In; auto.
Qed.

Lemma filler_conditions_dropped_witness :
  exists h log,
    _identify_missing_data ["Crit"%string] both_gaps = Ret (h, log) /\
    forall r, In r (rows (frame_of both_gaps h)) -> Condition r <> "Filler"%string.
Proof.
  apply (filler_conditions_dropped ["Crit"%string] both_gaps "Filler"%string).
  - reflexivity.
  - exists (KInt 1, "Crit"%string, KInt 1); split; [left; reflexivity | simpl; auto].
  - exists (KInt 2, "Filler"%string, KInt 1); split;
      [right; left; reflexivity | reflexivity].
  - intros [H | []]; discriminate.
Defined.

(** C9.  With an empty list of critical conditions the stage hands back the
    very table it was given, nothing removed, and the log lists the missing
    groups of both perspectives whenever there are any. *)
Theorem no_critical_conditions_no_exclusion df :
  has_column "RTremoveVal" df = true ->
  exists log,
    _identify_missing_data [] df = Ret (Same, log) /\
    frame_of df Same = df /\
    (missing ppt_key (rows df) <> [] ->
     In (MissingByPpt (missing ppt_key (rows df))) log) /\
    (missing item_key (rows df) <> [] ->
     In (MissingByItem (missing item_key (rows df))) log).
Proof.
  intros Hcol; unfold _identify_missing_data; rewrite Hcol; simpl negb; cbv iota.
  destruct (missing ppt_key (rows df)) as [|k ks] eqn:Em;
    (eexists; split; [reflexivity|]); (split; [reflexivity|]);
    simpl frame_of; unfold report_by_item.
  - split; [congruence|].
    destruct (missing item_key (rows df)); [congruence | intros _; simpl; auto].
  - split; [intros _; simpl; auto|].
    destruct (missing item_key (rows df));
      [congruence | intros _; simpl; auto].
Qed.

Lemma no_critical_conditions_no_exclusion_witness :
  exists log,
    _identify_missing_data [] scenario_B = Ret (Same, log) /\
    frame_of scenario_B Same = scenario_B /\
    (missing ppt_key (rows scenario_B) <> [] ->
     In (MissingByPpt (missing ppt_key (rows scenario_B))) log) /\
    (missing item_key (rows scenario_B) <> [] ->
     In (MissingByItem (missing item_key (rows scenario_B))) log).
Proof.
  apply (no_critical_conditions_no_exclusion scenario_B); reflexivity.
Defined.

(** ** Stage 3: bounds and winsorized values *)

Lemma nansum_nan xs : (forall x, In x xs -> x = None) -> nansum xs = 0.
Proof.
  induction xs as [|[v|] t IH]; simpl; intros H; [reflexivity | |].
  - specialize (H (Some v) (or_introl eq_refl)); discriminate.
  - apply IH; intros x Hx; apply H; auto.
Qed.

Lemma nansum_single xs x :
  count xs = 1%nat -> In (Some x) xs -> nansum xs = x.
Proof.
  unfold count; induction xs as [|[v|] t IH]; simpl; intros Hc Hx.
  - destruct Hx.
  - injection Hc as Hc.
    pose proof (proj1 (count_zero t) Hc) as Hn.
    rewrite (nansum_nan t Hn).
    destruct Hx as [[= ->] | Hx]; [lra|].
    apply Hn in Hx; discriminate.
  - destruct Hx as [Hx | Hx]; [discriminate | auto].
Qed.

Lemma std_nonneg xs s : std xs = Some s -> 0 <= s.
Proof.
  unfold std; destruct (count xs <=? 1)%nat; [discriminate|].
  intros [= <-]; apply sqrt_pos.
Qed.

(** The fallback keeps the deviation used for the bounds non-negative, so
    a non-negative multiplier gives [lower <= upper]. *)
Lemma outliers_bounds_ordered SD group lower upper :
  0 <= SD ->
  outliers_bounds SD group = (Some lower, Some upper) -> lower <= upper.
Proof.
  intros HSD; unfold outliers_bounds.
  destruct (mean group) as [m|]; simpl; [|discriminate].
  assert (Hs : 0 <= match std group with Some s => s | None => 0.1 end).
  { destruct (std group) as [s|] eqn:E; [eapply std_nonneg; eassumption | lra]. }
  intros [= <- <-]; nra.
Qed.

(** With coinciding bounds [pd.cut] rejects the edges: a group of equal
    observations makes [outliers] raise. *)
Lemma outliers_equal_bounds SD group x :
  outliers_bounds SD group = (Some x, Some x) ->
  outliers SD group = Raise (ValueError "Bin edges must be unique").
Proof.
  intros Hb; unfold outliers; rewrite Hb.
  unfold cut; simpl; rdec; reflexivity.
Qed.

(** C2 (evaluation at the failing input).  A group of two equal
    observations has a defined standard deviation, zero, so the test
    [np.isnan(std)] does not fire: the fallback 0.1 is not used, both bounds
    coincide with the mean instead of lying 0.2 on either side of it, and
    [pd.cut] then rejects the bin edges. *)
Theorem zero_variance_no_fallback :
  std [Some 5; Some 5] = Some 0 /\
  outliers_bounds 2 [Some 5; Some 5] = (Some 5, Some 5) /\
  outliers_bounds 2 [Some 5; Some 5] <> (Some (5 - 2 * 0.1), Some (5 + 2 * 0.1)) /\
  outliers 2 [Some 5; Some 5] = Raise (ValueError "Bin edges must be unique").
Proof.
  assert (HS : std [Some 5; Some 5] = Some 0).
  { unfold std; simpl.
    replace ((5 + (5 + 0)) / (1 + 1)) with 5 by lra.
    replace ((5 - 5) * ((5 - 5) * 1) + ((5 - 5) * ((5 - 5) * 1) + 0)) with 0 by lra.
    unfold Rdiv; rewrite Rmult_0_l, sqrt_0; reflexivity. }
  assert (B : outliers_bounds 2 [Some 5; Some 5] = (Some 5, Some 5)).
  { unfold outliers_bounds; rewrite HS; unfold mean; simpl.
    f_equal; f_equal; lra. }
  split; [exact HS|]; split; [exact B|]; split.
  - rewrite B; intros [= H _]; lra.
  - apply (outliers_equal_bounds 2 _ 5 B).
Qed.

Lemma scenario_C_mean : mean scenario_C = Some (5412 / 5).
Proof. unfold mean, scenario_C; simpl; f_equal; lra. Qed.

(** The standard deviation of the group exceeds 2000 (it is about 2190). *)
Lemma scenario_C_std : exists s, std scenario_C = Some s /\ 2000 < s.
Proof.
  unfold std, scenario_C; simpl count; simpl Nat.leb; cbv iota.
  eexists; split; [reflexivity|].
  rewrite <- (sqrt_square 2000) by lra.
  apply sqrt_lt_1_alt.
  simpl; lra.
Qed.

Lemma scenario_C_bounds :
  exists lower upper,
    outliers_bounds 2 scenario_C = (Some lower, Some upper) /\
    lower < 100 /\ 5000 < upper.
Proof.
  destruct scenario_C_std as (s & Hs & Hlt).
  unfold outliers_bounds; rewrite Hs, scenario_C_mean; simpl.
  do 2 eexists; split; [reflexivity | lra].
Qed.

Lemma combine_map {A B C : Type} (f : A -> B) (g : A -> C) (l : list A) :
  combine (map f l) (map g l) = map (fun x => (f x, g x)) l.
Proof. induction l as [|a t IH]; simpl; [reflexivity | now rewrite IH]. Qed.

Lemma outliers_trimmed_eq SD group lower upper :
  outliers_bounds SD group = (lower, upper) ->
  outliers_trimmed SD group = map (trim lower upper) group.
Proof. unfold outliers_trimmed; intros ->; reflexivity. Qed.

(** [outliers] returns as soon as the bounds are numbers and differ. *)
Lemma outliers_returns SD group lower upper :
  outliers_bounds SD group = (Some lower, Some upper) ->
  lower < upper ->
  outliers SD group =
  Ret (map (fun v => (cut_label NInf lower upper v, trim (Some lower) (Some upper) v))
           group).
Proof.
  intros Hb Hlt; unfold outliers.
  rewrite (outliers_trimmed_eq _ _ _ _ Hb), Hb.
  unfold cut; simpl; rdec; simpl.
  rewrite combine_map; reflexivity.
Qed.

(** Whatever [outliers] returns has one entry per value of the group, and
    its value column is the trimmed series. *)
Lemma outliers_values SD group out :
  outliers SD group = Ret out ->
  map snd out = outliers_trimmed SD group /\ length out = length group.
Proof.
  unfold outliers.
  destruct (outliers_bounds SD group) as [[lo|] [up|]] eqn:Hb; try discriminate.
  rewrite (outliers_trimmed_eq _ _ _ _ Hb).
  destruct (cut group NInf lo up) as [labels|e] eqn:Hc; [|discriminate].
  intros [= <-].
  unfold cut in Hc.
  destruct (negb _); [discriminate|]; destruct (negb _); [discriminate|].
  injection Hc as <-.
  rewrite combine_map, map_map, length_map; simpl; split; reflexivity.
Qed.

Lemma scenario_C_outliers :
  outliers 2 scenario_C =
  Ret [(Some Ok, Some 100); (Some Ok, Some 102); (Some Ok, Some 104);
       (Some Ok, Some 106); (Some Ok, Some 5000)].
Proof.
  destruct scenario_C_bounds as (lower & upper & Hb & Hlo & Hup).
  rewrite (outliers_returns 2 scenario_C lower upper Hb) by lra.
  unfold scenario_C, cut_label, trim, fgt, flt; simpl.
  rdec; reflexivity.
Qed.

(** C3 (counterexample).  In the group [100, 102, 104, 106, 5000] with
    multiplier 2, the value 5000 is not labelled [Above] and is not replaced
    by the upper bound. *)
Lemma scenario_C_not_above :
  ~ exists out upper,
      outliers 2 scenario_C = Ret out /\
      snd (outliers_bounds 2 scenario_C) = Some upper /\
      nth_error out 4 = Some (Some Above, Some upper).
Proof.
  intros (out & upper & E & _ & H).
  rewrite scenario_C_outliers in E; injection E as <-.
  simpl in H; discriminate.
Qed.

(** C3 (amended).  In the group [100, 102, 104, 106, 5000] with multiplier
    2 the upper bound mean + 2 * sigma lies above 5000 and the lower bound
    below 100: all five values are labelled [Ok] and left unchanged. *)
Theorem scenario_C_all_ok :
  exists lower upper,
    outliers_bounds 2 scenario_C = (Some lower, Some upper) /\
    lower < 100 /\ 5000 < upper /\
    outliers 2 scenario_C =
    Ret [(Some Ok, Some 100); (Some Ok, Some 102); (Some Ok, Some 104);
         (Some Ok, Some 106); (Some Ok, Some 5000)].
Proof.
  destruct scenario_C_bounds as (lower & upper & Hb & Hlo & Hup).
  exists lower, upper; repeat split; try assumption.
  exact scenario_C_outliers.
Qed.

(** Whenever the two bounds of a group differ, [outliers] returns one entry
    per value of the group, and the value it returns for [v] is [v] itself
    inside [[lower, upper]], [lower] below it and [upper] above it. *)
Lemma outliers_clamps SD group lower upper :
  outliers_bounds SD group = (Some lower, Some upper) ->
  lower < upper ->
  exists out,
    outliers SD group = Ret out /\
    length out = length group /\
    forall i v,
      nth_error group i = Some (Some v) ->
      exists lab t,
        nth_error out i = Some (lab, Some t) /\
        (lower <= v <= upper -> t = v) /\
        (v < lower -> t = lower) /\
        (upper < v -> t = upper).
Proof.
  intros Hb Hlt.
  eexists; split; [apply (outliers_returns SD group lower upper Hb Hlt)|].
  split; [apply length_map|].
  intros i v Hi; rewrite nth_error_map, Hi; simpl.
  unfold trim, fgt, flt.
  destruct (Rlt_b upper v) eqn:E1; [apply Rlt_b_true in E1 | apply Rlt_b_false in E1];
    (destruct (Rlt_b v lower) eqn:E2;
      [apply Rlt_b_true in E2 | apply Rlt_b_false in E2]);
    do 2 eexists; (split; [reflexivity|]); repeat split; intros; lra.
Qed.

Lemma equal_pair_bounds :
  outliers_bounds 2 [Some 300; Some 300] = (Some 300, Some 300).
Proof.
  assert (HS : std [Some 300; Some 300] = Some 0).
  { unfold std; simpl.
    replace ((300 + (300 + 0)) / (1 + 1)) with 300 by lra.
    replace ((300 - 300) * ((300 - 300) * 1) + ((300 - 300) * ((300 - 300) * 1) + 0))
      with 0 by lra.
    unfold Rdiv; rewrite Rmult_0_l, sqrt_0; reflexivity. }
  unfold outliers_bounds; rewrite HS; unfold mean; simpl.
  f_equal; f_equal; lra.
Qed.

(** C7 (evaluation at the failing input).  A participant with two records
    of one condition and word position, both with reaction time 300: the
    bounds of the group coincide, [pd.cut] rejects them, and [outliers],
    hence [_filter_outliers], raises instead of returning the two values
    unchanged. *)
Theorem equal_observations_not_winsorized :
  outliers_bounds 2 [Some 300; Some 300] = (Some 300, Some 300) /\
  outliers 2 [Some 300; Some 300] = Raise (ValueError "Bin edges must be unique") /\
  _filter_outliers equal_pair true true 2
  = Raise (ValueError "Bin edges must be unique").
Proof.
  pose proof (outliers_equal_bounds 2 _ 300 equal_pair_bounds) as Ho.
  split; [exact equal_pair_bounds|]; split; [exact Ho|].
  unfold _filter_outliers, filter_pass; simpl.
  rewrite Ho; reflexivity.
Qed.

(** ** The orchestrator: failures of the validation *)

Lemma check_columns_complete cols d acc :
  forallb (fun c => has_column c d) cols = true ->
  check_columns cols d acc = Ret acc.
Proof.
  induction cols as [|c t IH]; simpl; [reflexivity|].
  intros H; apply andb_true_iff in H as [-> H]; simpl; auto.
Qed.

Lemma check_columns_absent cols d acc c :
  In c cols -> has_column c d = false ->
  check_columns cols d acc = Raise (NameError "col").
Proof.
  induction cols as [|a t IH]; simpl; [intros []|].
  intros [-> | H] Hc.
  - rewrite Hc; reflexivity.
  - destruct (has_column a d); simpl; auto.
Qed.

(** Whatever the arguments, a table that lacks a required column makes
    [get_RTdata] raise [NameError] (not [ValueError]) and leaves the state
    as it was. *)
Lemma get_RTdata_absent_column cc sm re im fo s d c :
  nth (data (self s)) (heap s) NotDF = DF d ->
  In c required_columns -> has_column c d = false ->
  get_RTdata cc sm re im fo s = (Raise (NameError "col"), s).
Proof.
  intros Hd Hc Hn.
  unfold get_RTdata, bind, get_self, load, lift; rewrite Hd.
  rewrite (check_columns_absent _ _ _ c Hc Hn); reflexivity.
Qed.

(** A critical condition that the selected rows do not contain makes
    [get_RTdata] raise [ValueError] after the working copy is made and
    before any stage runs: nothing is printed, [RTdata] is not assigned. *)
Lemma get_RTdata_unknown_condition l sm re im fo s d c :
  nth (data (self s)) (heap s) NotDF = DF d ->
  forallb (fun c => has_column c d) required_columns = true ->
  forallb is_str l = true ->
  In c (strings l) -> ~ In c (map Condition (rows (select d))) ->
  exists s',
    get_RTdata (CC_list l) sm re im fo s =
      (Raise (ValueError "All conditions provided in critical_conditions must be in supplied self.data"), s') /\
    self s' = self s /\ stdout s' = stdout s.
Proof.
  intros Hd Hcols Hstr Hc Hn.
  unfold get_RTdata, bind, get_self, load, lift, alloc; rewrite Hd.
  rewrite (check_columns_complete _ _ _ Hcols); simpl check_missing; cbv iota.
  unfold check_critical_conditions; rewrite Hstr; simpl negb; cbv iota.
  destruct (forallb _ (strings l)) eqn:E.
  - exfalso; rewrite forallb_forall in E.
    apply E, str_In in Hc.
    apply (proj1 (unique_In _ String.eqb_eq _ _)) in Hc; exact (Hn Hc).
  - simpl; eexists; split; [reflexivity|]; split; reflexivity.
Qed.

(** C8 (evaluation at the failing input).  On a table without the RT column
    the default call raises [NameError] for the unbound name [col], not the
    [ValueError] that names the missing columns; the state, [RTdata]
    included, is untouched. *)
Theorem get_RTdata_missing_column_NameError :
  get_RTdata (CC_list []) true (RE_list [200; 5000]) true (FO_number 2) no_RT_column
  = (Raise (NameError "col"), no_RT_column).
Proof.
  apply (get_RTdata_absent_column _ _ _ _ _ no_RT_column
           (mkDF ["PPT"; "WordPos"; "Condition"; "Item"]%string
                 [trial 0 1 "Crit" 1 300]) "RT"%string).
  - reflexivity.
  - simpl; auto 6.
  - reflexivity.
Qed.

(** ** The orchestrator: the source table is not touched *)

Lemma extends_refl n s : extends n s s.
Proof. unfold extends; auto. Qed.

Lemma extends_trans n s1 s2 s3 :
  extends n s1 s2 -> extends n s2 s3 -> extends n s1 s3.
Proof.
  unfold extends; intros (A1 & B1 & C1) (A2 & B2 & C2).
  repeat split; [congruence | lia | congruence].
Qed.

Lemma update_length l o h : length (update l o h) = length h.
Proof.
  revert l; induction h as [|x t IH]; intros [|l]; simpl; auto.
Qed.

Lemma update_firstn n l o h : (n <= l)%nat -> firstn n (update l o h) = firstn n h.
Proof.
  revert n l; induction h as [|x t IH]; intros [|n] [|l] H; simpl; auto; try lia.
  f_equal; apply IH; lia.
Qed.

Lemma firstn_app_le {A : Type} n (h t : list A) :
  (n <= length h)%nat -> firstn n (h ++ t) = firstn n h.
Proof.
  intros H; rewrite firstn_app.
  replace (n - length h)%nat with 0%nat by lia.
  simpl; apply app_nil_r.
Qed.

Section Safe.
Variable n : nat.

Lemma safe_ret {A : Type} (a : A) (Q : A -> State -> Prop) :
  (forall s, Q a s) -> safe n (ret a) Q.
Proof.
  intros HQ s r s' Hn [= <- <-]; split; [apply extends_refl|].
  split; [assumption|]; intros b [= <-]; apply HQ.
Qed.

Lemma safe_raise {A : Type} e (Q : A -> State -> Prop) : safe n (raise e) Q.
Proof.
  intros s r s' Hn [= <- <-]; split; [apply extends_refl|].
  split; [assumption|]; discriminate.
Qed.

Lemma safe_lift {A : Type} (x : res A) : safe n (lift x) (fun _ _ => True).
Proof.
  intros s r s' Hn [= <- <-]; split; [apply extends_refl|]; auto.
Qed.

Lemma safe_print ms : safe n (print ms) (fun _ _ => True).
Proof.
  intros s r s' Hn [= <- <-]; split; [|auto].
  unfold extends; simpl; auto.
Qed.

Lemma safe_load l : safe n (load l) (fun _ _ => True).
Proof.
  intros s r s' Hn [= <- <-]; split; [apply extends_refl|]; auto.
Qed.

Lemma safe_alloc o : safe n (alloc o) (fresh n).
Proof.
  intros s r s' Hn [= <- <-]; unfold extends; simpl.
  rewrite length_app, firstn_app_le by assumption; simpl.
  repeat split; try lia.
  intros a [= <-]; assumption.
Qed.

Lemma safe_store l o : (n <= l)%nat -> safe n (store l o) (fun _ _ => True).
Proof.
  intros Hl s r s' Hn [= <- <-]; unfold extends; simpl.
  rewrite update_length, update_firstn by assumption; auto.
Qed.

Lemma safe_bind {A B : Type} (m : M A) (f : A -> M B) Q Q' :
  safe n m Q ->
  (forall a, (exists s0, Q a s0) -> safe n (f a) Q') ->
  safe n (bind m f) Q'.
Proof.
  intros Hm Hf s r s' Hn; unfold bind.
  destruct (m s) as [[a|e] s1] eqn:E.
  - destruct (Hm s (Ret a) s1 Hn E) as (X1 & L1 & Q1).
    intros E2.
    destruct (Hf a (ex_intro _ s1 (Q1 a eq_refl)) s1 r s' L1 E2) as (X2 & L2 & Q2).
    split; [eapply extends_trans; eassumption|]; split; assumption.
  - intros [= <- <-].
    destruct (Hm s (Raise e) s1 Hn E) as (X1 & L1 & _).
    split; [assumption|]; split; [assumption|]; discriminate.
Qed.

Lemma safe_weaken {A : Type} (m : M A) (Q Q' : A -> State -> Prop) :
  safe n m Q -> (forall a s, Q a s -> Q' a s) -> safe n m Q'.
Proof.
  intros Hm HQ s r s' Hn E; destruct (Hm s r s' Hn E) as (X & L & H).
  split; [assumption|]; split; [assumption|]; intros a Ha; apply HQ, H, Ha.
Qed.

Lemma safe_in_place f df : (n <= df)%nat -> safe n (in_place f df) (fresh n).
Proof.
  intros Hdf; unfold in_place.
  eapply safe_bind; [apply safe_load|]; intros [d|] _; [|apply safe_raise].
  eapply safe_bind; [apply safe_lift|]; intros r _.
  eapply safe_bind; [apply safe_store; assumption|]; intros _ _.
  eapply safe_bind; [apply safe_print|]; intros _ _.
  apply safe_ret; intros; exact Hdf.
Qed.

Lemma safe_handing f df : (n <= df)%nat -> safe n (handing f df) (fresh n).
Proof.
  intros Hdf; unfold handing.
  eapply safe_bind; [apply safe_load|]; intros [d|] _; [|apply safe_raise].
  eapply safe_bind; [apply safe_lift|]; intros r _.
  eapply safe_bind; [apply safe_print|]; intros _ _.
  destruct (fst r); [apply safe_ret; intros; exact Hdf | apply safe_alloc].
Qed.

Lemma safe_file_summary df : safe n (file_summary df) (fun _ _ => True).
Proof.
  unfold file_summary.
  eapply safe_bind; [apply safe_print|]; intros _ _.
  destruct (unique String.eqb (map Condition (rows df))); [apply safe_raise|].
  eapply safe_bind; [apply safe_print|]; intros _ _; apply safe_print.
Qed.

Lemma safe_extremes_step re df :
  (n <= df)%nat -> safe n (extremes_step re df) (fresh n).
Proof.
  intros Hdf; unfold extremes_step.
  assert (Hskip : safe n (print [ExtremesSkipped] ;;; ret df) (fresh n)).
  { eapply safe_bind; [apply safe_print|]; intros _ _.
    apply safe_ret; intros; exact Hdf. }
  destruct re as [[|low [|high [|x t]]]| |]; try assumption;
    try (apply safe_ret; intros; exact Hdf); try apply safe_raise.
  destruct (Rlt_b low high); [apply safe_in_place; assumption | apply safe_raise].
Qed.

Lemma safe_outliers_step fo df :
  (n <= df)%nat -> safe n (outliers_step fo df) (fresh n).
Proof.
  intros Hdf; unfold outliers_step.
  destruct fo as [sd| |];
    [| apply safe_ret; intros; exact Hdf | apply safe_raise].
  destruct (Rlt_b sd 0); [apply safe_raise|].
  eapply safe_bind; [|intros _ _; apply safe_in_place; assumption].
  destruct (_ || _); [apply safe_print | apply safe_ret; auto].
Qed.

Lemma safe_get_self : safe n get_self (fun _ _ => True).
Proof.
  intros s r s' Hn [= <- <-]; split; [apply extends_refl|]; auto.
Qed.

Lemma safe_publish rt :
  safe n (set_RTdata rt ;;; print [Success])
       (fun _ s => RTdata (self s) = Some rt).
Proof.
  intros s r s' Hn [= <- <-]; unfold extends; simpl.
  repeat split; auto.
Qed.

Lemma safe_get_RTdata cc sm re im fo :
  safe n (get_RTdata cc sm re im fo)
       (fun _ s => exists rt, RTdata (self s) = Some rt /\ (n <= rt)%nat).
Proof.
  unfold get_RTdata.
  eapply safe_bind; [apply safe_get_self|]; intros me _.
  eapply safe_bind; [apply safe_load|]; intros [self_data|] _; [|apply safe_raise].
  eapply safe_bind; [apply safe_lift|]; intros missing _.
  eapply safe_bind; [apply safe_lift|]; intros _ _.
  eapply safe_bind; [apply safe_alloc|]; intros df [? Hdf].
  eapply safe_bind; [apply safe_lift|]; intros ccs _.
  eapply safe_bind with (Q := fun _ _ => True).
  { destruct sm; [apply safe_file_summary | apply safe_ret; auto]. }
  intros _ _.
  eapply safe_bind; [apply safe_extremes_step; exact Hdf|]; intros df1 [? Hdf1].
  eapply safe_bind with (Q := fresh n).
  { destruct im; [apply safe_handing; exact Hdf1
                 | apply safe_ret; intros; exact Hdf1]. }
  intros df2 [? Hdf2].
  eapply safe_bind; [apply safe_outliers_step; exact Hdf2|]; intros df3 [? Hdf3].
  eapply safe_bind; [apply safe_load|]; intros [d|] _; [|apply safe_raise].
  eapply safe_bind; [apply safe_alloc|]; intros rt [? Hrt].
  eapply safe_weaken; [apply safe_publish|].
  intros u s H; exists rt; split; assumption.
Qed.
End Safe.

Lemma nth_firstn_lt {A : Type} (l n : nat) (h : list A) (d : A) :
  (l < n)%nat -> nth l (firstn n h) d = nth l h d.
Proof.
  revert l n; induction h as [|x t IH]; intros [|l] [|n] H; simpl; auto; try lia.
  apply IH; lia.
Qed.

Lemma nth_DF_valid l h d : nth l h NotDF = DF d -> (l < length h)%nat.
Proof.
  intros H; destruct (Nat.lt_ge_cases l (length h)) as [|Hge]; [assumption|].
  rewrite (nth_overflow h NotDF Hge) in H; discriminate.
Qed.

Lemma get_RTdata_returns_loaded cc sm re im fo s s' :
  get_RTdata cc sm re im fo s = (Ret tt, s') ->
  exists d, nth (data (self s)) (heap s) NotDF = DF d.
Proof.
  unfold get_RTdata, bind, get_self, load.
  destruct (nth (data (self s)) (heap s) NotDF) as [d|]; [eauto | discriminate].
Qed.

Lemma extremes_row_removed low high i p c it rt :
  0 < rt <= low -> low < high ->
  extremes_row low high (trial i p c it rt) = removed i p c it rt.
Proof.
  intros H1 H2; unfold extremes_row, removed, removeExtremes, fgt, flt, cut_label.
  simpl; rdec; reflexivity.
Qed.

Lemma extremes_row_kept low high i p c it rt :
  0 < low -> low < rt < high ->
  extremes_row low high (trial i p c it rt) = kept i p c it rt.
Proof.
  intros H1 H2; unfold extremes_row, kept, removeExtremes, fgt, flt, cut_label.
  simpl; rdec; reflexivity.
Qed.

Lemma scenario_A_extremes :
  exists log,
    _remove_extremes
      (select (mkDF required_columns
                    [trial 0 1 "Crit" 1 180; trial 1 1 "Crit" 1 300])) 200 5000
    = Ret (scenario_A_filtered, log).
Proof.
  edestruct remove_extremes_accepts as [log E]; [| | exists log; rewrite E].
  1, 2: lra.
  unfold select; simpl.
  change (clear_derived (trial 0 1 "Crit" 1 180)) with (trial 0 1 "Crit" 1 180).
  change (clear_derived (trial 1 1 "Crit" 1 300)) with (trial 1 1 "Crit" 1 300).
  rewrite extremes_row_removed, extremes_row_kept by lra.
  reflexivity.
Qed.

(** Scenario A: the group of participant 1 still has one observation, so
    nothing is missing and the table is handed back as it is. *)
Lemma scenario_A_missing :
  _identify_missing_data ["Crit"%string] scenario_A_filtered
  = Ret (Same, [NoMissingByPpt]).
Proof. reflexivity. Qed.

Lemma scenario_A_outliers :
  exists d log, _filter_outliers scenario_A_filtered true true 2 = Ret (d, log).
Proof.
  assert (Hb : outliers_bounds 2 [None; Some 300]
               = (Some (300 - 2 * 0.1), Some (300 + 2 * 0.1))).
  { unfold outliers_bounds, std, mean; simpl; f_equal; f_equal; lra. }
  pose proof (outliers_returns 2 [None; Some 300] _ _ Hb ltac:(lra)) as Ho.
  unfold _filter_outliers, filter_pass; simpl.
  rewrite Ho; simpl.
  rewrite Ho; simpl.
  eauto.
Qed.

#[local] Arguments _remove_extremes : simpl never.
#[local] Arguments _identify_missing_data : simpl never.
#[local] Arguments _filter_outliers : simpl never.
#[local] Arguments select : simpl never.

Lemma scenario_A_runs :
  exists s',
    get_RTdata (CC_list [Str "Crit"]) true (RE_list [200; 5000]) true (FO_number 2)
               scenario_A = (Ret tt, s').
Proof.
  destruct scenario_A_extremes as [log1 E1].
  destruct scenario_A_outliers as (d3 & log3 & E3).
  unfold get_RTdata, bind, get_self, load, lift, alloc, scenario_A; simpl.
  change (check_critical_conditions _ _) with (Ret (A := list string) ["Crit"%string]).
  cbv iota.
  change (file_summary _) with
    (print [PptCount 1] ;;; print [ConditionsInFile ["Crit"%string]] ;;;
     print [RecordCount 2]).
  unfold bind, print; simpl.
  unfold Rlt_b at 1; destruct (Rlt_dec 200 5000); [|lra].
  unfold in_place, bind, load, lift, store, print, ret; simpl.
  rewrite E1; simpl.
  unfold handing, bind, load, lift, print, ret; simpl.
  replace (Rlt_b 2 0) with false by (symmetry; apply Rlt_b_false; lra).
  replace (Rlt_b 2 1) with false by (symmetry; apply Rlt_b_false; lra).
  replace (Rlt_b 3 2) with false by (symmetry; apply Rlt_b_false; lra).
  simpl; rewrite E3; simpl.
  eexists; reflexivity.
Qed.

(** C10.  When [get_RTdata] returns, the [data] attribute still refers to
    the same object, that object and every object that existed before the
    call are as they were, and [RTdata] refers to an object allocated
    during the call, hence another one than the source table. *)
Theorem get_RTdata_leaves_data cc sm re im fo s s' :
  get_RTdata cc sm re im fo s = (Ret tt, s') ->
  data (self s') = data (self s) /\
  nth (data (self s')) (heap s') NotDF = nth (data (self s)) (heap s) NotDF /\
  firstn (length (heap s)) (heap s') = heap s /\
  exists rt, RTdata (self s') = Some rt /\ rt <> data (self s).
Proof.
  intros E.
  destruct (get_RTdata_returns_loaded _ _ _ _ _ _ _ E) as [d Hd].
  apply nth_DF_valid in Hd.
  destruct (safe_get_RTdata (length (heap s)) cc sm re im fo s (Ret tt) s'
              (le_n _) E) as ((Hpre & Hlen & Hdata) & _ & Hrt).
  rewrite firstn_all in Hpre.
  destruct (Hrt tt eq_refl) as (rt & Hrt1 & Hrt2).
  split; [assumption|]; split; [|split; [assumption|]].
  - rewrite Hdata.
    rewrite <- (nth_firstn_lt _ (length (heap s)) (heap s')) by assumption.
    rewrite Hpre; reflexivity.
  - exists rt; split; [assumption | lia].
Qed.

Lemma get_RTdata_leaves_data_witness :
  exists s',
    get_RTdata (CC_list [Str "Crit"]) true (RE_list [200; 5000]) true (FO_number 2)
               scenario_A = (Ret tt, s') /\
    data (self s') = 0%nat /\
    nth (data (self s')) (heap s') NotDF = nth 0 (heap scenario_A) NotDF.
Proof.
  destruct scenario_A_runs as [s' E].
  exists s'; split; [exact E|].
  destruct (get_RTdata_leaves_data _ _ _ _ _ _ _ E) as (H1 & H2 & _).
  split; [exact H1 | exact H2].
Defined.


(** * Further properties of the stages *)

(** ** [_remove_extremes] *)

(** The filter returns exactly for the windows with [0 < low < high]; any
    other window makes [pd.cut] raise [ValueError], a window that starts at
    0 included. *)
Theorem remove_extremes_window df low high :
  match _remove_extremes df low high with
  | Ret _ => 0 < low < high
  | Raise (ValueError _) => ~ (0 < low < high)
  | Raise _ => False
  end.
Proof.
  unfold _remove_extremes, cut; simpl.
  destruct (Rle_b 0 low) eqn:E1; simpl.
  - destruct (Rle_b low high) eqn:E2; simpl.
    + destruct (Rlt_b 0 low) eqn:E3; simpl.
      * destruct (Rlt_b low high) eqn:E4; simpl.
        -- apply Rlt_b_true in E3, E4; lra.
        -- apply Rlt_b_false in E4; lra.
      * apply Rlt_b_false in E3; lra.
    + apply Rle_b_false in E2; lra.
  - apply Rle_b_false in E1; lra.
Qed.

Lemma remove_extremes_inv df low high out log :
  _remove_extremes df low high = Ret (out, log) ->
  0 < low < high /\
  out = mkDF (add_column "RTremoveVal" (add_column "RTremove" (columns df)))
             (map (extremes_row low high) (rows df)) /\
  log = [ExtremesSummary
           (count_band Below (map (cut_label (Fin 0) low high) (map RT (rows df))))
           (count_band Above (map (cut_label (Fin 0) low high) (map RT (rows df))))
           (length (rows df))].
Proof.
  intros E.
  assert (W : 0 < low < high).
  { unfold _remove_extremes, cut in E; simpl in E.
    destruct (Rle_b 0 low && Rle_b low high); [|discriminate].
    destruct (Rlt_b 0 low) eqn:E1; [|discriminate].
    destruct (Rlt_b low high) eqn:E2; [|discriminate].
    apply Rlt_b_true in E1, E2; lra. }
  split; [exact W|].
  unfold _remove_extremes in E; rewrite cut_accepts in E by lra.
  injection E as <- <-; split; reflexivity.
Qed.

(** Every value that survives the filter is the row's own reaction time,
    lies strictly inside the window and carries the label [Ok]. *)
Theorem remove_extremes_kept_inside df low high out log r v :
  _remove_extremes df low high = Ret (out, log) ->
  In r (rows out) -> RTremoveVal r = Some v ->
  RT r = Some v /\ low < v < high /\ RTremove r = Some Ok.
Proof.
  intros E Hr Hv.
  apply remove_extremes_inv in E as (W & -> & _); simpl in Hr.
  apply in_map_iff in Hr as (r0 & <- & _).
  destruct (extremes_value_defined low high r0 v) as (H1 & H2 & H3);
    [lra | assumption |].
  repeat split; try lra; assumption.
Qed.

Lemma remove_extremes_kept_inside_witness :
  RT (kept 1 1 "Crit" 1 300) = Some 300 /\ 200 < 300 < 5000 /\
  RTremove (kept 1 1 "Crit" 1 300) = Some Ok.
Proof.
  destruct scenario_A_extremes as [log E].
  apply (remove_extremes_kept_inside _ _ _ _ _ (kept 1 1 "Crit" 1 300) 300 E).
  - right; left; reflexivity.
  - reflexivity.
Defined.

(** The filter keeps every row, in order, with its label, identifiers and
    reaction time: it only writes its two columns. *)
Theorem remove_extremes_keeps_rows df low high out log :
  _remove_extremes df low high = Ret (out, log) ->
  map identity (rows out) = map identity (rows df).
Proof.
  intros E; apply remove_extremes_inv in E as (_ & -> & _); simpl.
  rewrite map_map; apply map_ext; intros r; reflexivity.
Qed.

Lemma remove_extremes_keeps_rows_witness :
  map identity (rows scenario_A_filtered) =
  map identity (rows (select (mkDF required_columns
                                   [trial 0 1 "Crit" 1 180; trial 1 1 "Crit" 1 300]))).
Proof.
  destruct scenario_A_extremes as [log E].
  exact (remove_extremes_keeps_rows _ _ _ _ _ E).
Defined.

Lemma has_add_column_same c cs : existsb (String.eqb c) (add_column c cs) = true.
Proof.
  unfold add_column; destruct (existsb (String.eqb c) cs) eqn:E; [assumption|].
  rewrite existsb_app, E; simpl; rewrite String.eqb_refl; reflexivity.
Qed.

Lemma has_add_column_other c c' cs :
  existsb (String.eqb c) cs = true -> existsb (String.eqb c) (add_column c' cs) = true.
Proof.
  intros H; unfold add_column; destruct (existsb (String.eqb c') cs); [assumption|].
  rewrite existsb_app, H; reflexivity.
Qed.

Lemma add_column_present c cs :
  existsb (String.eqb c) cs = true -> add_column c cs = cs.
Proof. intros H; unfold add_column; rewrite H; reflexivity. Qed.

(** Running the filter again, with the same window, on its own output
    changes nothing: it recomputes both columns from [RT] alone and even
    prints the same summary. *)
Theorem remove_extremes_idempotent df low high out log :
  _remove_extremes df low high = Ret (out, log) ->
  _remove_extremes out low high = Ret (out, log).
Proof.
  intros E; apply remove_extremes_inv in E as (W & -> & ->).
  unfold _remove_extremes; rewrite cut_accepts by lra; simpl.
  rewrite (add_column_present "RTremove")
    by (apply has_add_column_other, has_add_column_same).
  rewrite (add_column_present "RTremoveVal") by apply has_add_column_same.
  rewrite !map_map, !length_map; reflexivity.
Qed.

Lemma remove_extremes_idempotent_witness :
  exists log, _remove_extremes scenario_A_filtered 200 5000
              = Ret (scenario_A_filtered, log).
Proof.
  destruct scenario_A_extremes as [log E].
  exists log; exact (remove_extremes_idempotent _ _ _ _ _ E).
Defined.

(** ** [_identify_missing_data] *)

(** The two ways the stage returns: without a missing group in a critical
    condition it hands back the object it was given; with one it hands back
    a new table, the rows of the ineligible participants and of the filler
    conditions removed. *)
Lemma identify_missing_data_cases cc df :
  has_column "RTremoveVal" df = true ->
  exists h log,
    _identify_missing_data cc df = Ret (h, log) /\
    ((h = Same /\
      ~ exists k, In k (missing ppt_key (rows df)) /\ In (condition_of k) cc) \/
     ((exists d, h = New d /\ columns d = columns df) /\
      (exists k, In k (missing ppt_key (rows df)) /\ In (condition_of k) cc) /\
      forall r, In r (rows (frame_of df h)) <->
                In r (rows df) /\ ~ In (PPT r) (ineligible cc df) /\
                ~ In (Condition r) (filler cc df))).
Proof.
  intros Hc.
  unfold _identify_missing_data; rewrite Hc; simpl negb; cbv iota.
  destruct (missing ppt_key (rows df)) as [|k0 ks] eqn:Em.
  { do 2 eexists; split; [reflexivity|]; left; split; [reflexivity|].
    intros (k & [] & _). }
  destruct cc as [|c0 cs] eqn:Ecc.
  { do 2 eexists; split; [reflexivity|]; left; split; [reflexivity|].
    intros (k & _ & []). }
  rewrite <- Ecc, <- Em in *.
  fold (critical_in_data cc df).
  destruct (critical_in_data cc df) as [|c1 cs1] eqn:Ecd.
  { do 2 eexists; split; [reflexivity|]; left; split; [reflexivity|].
    intros (k & Hk & Hcc).
    assert (H : In (condition_of k) (critical_in_data cc df))
      by (apply critical_in_data_In; eauto).
    rewrite Ecd in H; destruct H. }
  rewrite <- Ecd in *.
  assert (Hex : exists k, In k (missing ppt_key (rows df)) /\ In (condition_of k) cc).
  { assert (H : In c1 (critical_in_data cc df)) by (rewrite Ecd; left; reflexivity).
    apply critical_in_data_In in H as (H1 & k & H2 & H3); exists k; subst; auto. }
  fold (ineligible cc df); fold (filler cc df).
  destruct (filler cc df) as [|f fs] eqn:Ef.
  - do 2 eexists; split; [reflexivity|]; right; simpl frame_of.
    split; [eexists; split; reflexivity|]; split; [exact Hex|].
    intros r; rewrite rows_drop_ppts; simpl; tauto.
  - rewrite <- Ef.
    do 2 eexists; split; [reflexivity|]; right; simpl frame_of.
    split; [eexists; split; reflexivity|]; split; [exact Hex|].
    intros r; rewrite rows_drop_conditions, rows_drop_ppts; tauto.
Qed.

Lemma filter_twice {A : Type} (f g : A -> bool) (l : list A) :
  filter g (filter f l) = filter (fun x => f x && g x) l.
Proof.
  induction l as [|a t IH]; simpl; [reflexivity|].
  destruct (f a); simpl; [destruct (g a)|]; rewrite IH; reflexivity.
Qed.

(** The stage only removes rows: what it returns is the input table
    filtered by a predicate on rows, in the same order and with the same
    columns. *)
Theorem identify_missing_data_filters cc df h log :
  _identify_missing_data cc df = Ret (h, log) ->
  columns (frame_of df h) = columns df /\
  exists keep, rows (frame_of df h) = filter keep (rows df).
Proof.
  unfold _identify_missing_data.
  destruct (negb (has_column "RTremoveVal" df)); [discriminate|].
  assert (Hall : rows df = filter (fun _ => true) (rows df)).
  { induction (rows df) as [|a t IH]; simpl; [reflexivity | now rewrite <- IH]. }
  destruct (missing ppt_key (rows df)) as [|k0 ks].
  { intros [= <- _]; split; [reflexivity | eexists; exact Hall]. }
  destruct cc as [|c0 cs].
  { intros [= <- _]; split; [reflexivity | eexists; exact Hall]. }
  destruct (filter _ (c0 :: cs)) as [|c1 cs1].
  { intros [= <- _]; split; [reflexivity | eexists; exact Hall]. }
  destruct (unique String.eqb _) as [|f fs].
  - intros [= <- _]; split; [reflexivity | eexists; reflexivity].
  - intros [= <- _]; split; [reflexivity|].
    eexists; simpl; apply filter_twice.
Qed.

Lemma identify_missing_data_filters_witness :
  columns (frame_of scenario_A_filtered Same) = columns scenario_A_filtered /\
  exists keep,
    rows (frame_of scenario_A_filtered Same) = filter keep (rows scenario_A_filtered).
Proof.
  exact (identify_missing_data_filters _ _ _ _ scenario_A_missing).
Defined.

Lemma nil_no_member {A : Type} (l : list A) : (forall x, ~ In x l) -> l = [].
Proof.
  destruct l as [|a t]; [reflexivity|].
  intros H; destruct (H a); left; reflexivity.
Qed.

(** The stage hands back the very object it was given exactly when no
    missing group belongs to a critical condition. *)
Theorem identify_missing_data_same_iff cc df h log :
  _identify_missing_data cc df = Ret (h, log) ->
  (h = Same <->
   ~ exists k, In k (missing ppt_key (rows df)) /\ In (condition_of k) cc).
Proof.
  intros E.
  assert (Hc : has_column "RTremoveVal" df = true).
  { unfold _identify_missing_data in E.
    destruct (has_column "RTremoveVal" df); [reflexivity | discriminate]. }
  destruct (identify_missing_data_cases cc df Hc) as (h' & log' & E' & Hcase).
  rewrite E in E'; injection E' as <- <-.
  destruct Hcase as [[-> Hn] | [(d & -> & _) [Hex _]]].
  - tauto.
  - split; [discriminate | intros Hn; destruct (Hn Hex)].
Qed.

Lemma identify_missing_data_same_iff_witness :
  Same = Same <->
  ~ exists k, In k (missing ppt_key (rows scenario_A_filtered)) /\
              In (condition_of k) ["Crit"%string].
Proof.
  exact (identify_missing_data_same_iff _ _ _ _ scenario_A_missing).
Defined.

(** When participants are excluded, the table that comes back is complete
    from the participant perspective: none of its groups is missing, so the
    groups that were reported are all gone. *)
Theorem identify_missing_data_complete cc df h log :
  _identify_missing_data cc df = Ret (h, log) ->
  (exists k, In k (missing ppt_key (rows df)) /\ In (condition_of k) cc) ->
  missing ppt_key (rows (frame_of df h)) = [].
Proof.
  intros E Hex.
  assert (Hc : has_column "RTremoveVal" df = true).
  { unfold _identify_missing_data in E.
    destruct (has_column "RTremoveVal" df); [reflexivity | discriminate]. }
  destruct (identify_missing_data_cases cc df Hc) as (h' & log' & E' & Hcase).
  rewrite E in E'; injection E' as <- <-.
  destruct Hcase as [[_ Hn] | (_ & _ & Hrows)]; [destruct (Hn Hex)|].
  apply nil_no_member; intros k Hk.
  apply missing_In in Hk as [(r & Hr & Hkey) Hnan].
  apply Hrows in Hr as (Hr & Hinel & Hfill).
  assert (Hsame : forall r', In r' (rows df) -> ppt_key r' = k ->
                             In r' (rows (frame_of df h))).
  { intros r' Hr' Hk'; apply Hrows; split; [assumption|].
    rewrite <- Hkey in Hk'; unfold ppt_key in Hk'; injection Hk' as -> -> _.
    split; assumption. }
  assert (Hmiss : In k (missing ppt_key (rows df))).
  { apply missing_In; split; [eauto|].
    destruct Hnan as [Hnan | Hnan]; [left | right]; intros r' Hr' Hk'; auto. }
  destruct (in_dec string_dec (Condition r) cc) as [Hin | Hout].
  - apply Hinel, ineligible_In; exists k; split; [assumption|].
    subst k; unfold ppt_key, condition_of, entity_of; simpl; auto.
  - apply Hfill, filler_In; split; [assumption|].
    exists k; split; [assumption|]; subst k; reflexivity.
Qed.

Lemma identify_missing_data_complete_witness :
  exists h log,
    _identify_missing_data ["Crit"%string] both_gaps = Ret (h, log) /\
    missing ppt_key (rows (frame_of both_gaps h)) = [].
Proof.
  destruct (identify_missing_data_cases ["Crit"%string] both_gaps eq_refl)
    as (h & log & E & _).
  exists h, log; split; [exact E|].
  apply (identify_missing_data_complete _ _ _ _ E).
  exists (KInt 1, "Crit"%string, KInt 1); split; [left; reflexivity | simpl; auto].
Defined.

(** Exclusion is exact: a row of a critical condition survives whenever its
    participant has no missing group in any critical condition. *)
Theorem identify_missing_data_keeps_eligible cc df h log r :
  _identify_missing_data cc df = Ret (h, log) ->
  In r (rows df) -> In (Condition r) cc ->
  (forall k, In k (missing ppt_key (rows df)) -> In (condition_of k) cc ->
             entity_of k <> PPT r) ->
  In r (rows (frame_of df h)).
Proof.
  intros E Hr Hcc Hel.
  assert (Hc : has_column "RTremoveVal" df = true).
  { unfold _identify_missing_data in E.
    destruct (has_column "RTremoveVal" df); [reflexivity | discriminate]. }
  destruct (identify_missing_data_cases cc df Hc) as (h' & log' & E' & Hcase).
  rewrite E in E'; injection E' as <- <-.
  destruct Hcase as [[-> _] | (_ & _ & Hrows)]; [exact Hr|].
  apply Hrows; split; [assumption|]; split.
  - intros Hi; apply ineligible_In in Hi as (k & Hk & Hkc & He).
    exact (Hel k Hk Hkc He).
  - intros Hf; apply filler_In in Hf as [Hn _]; exact (Hn Hcc).
Qed.

Lemma identify_missing_data_keeps_eligible_witness :
  exists h log,
    _identify_missing_data ["Crit"%string] both_gaps = Ret (h, log) /\
    In (kept 3 2 "Crit" 1 410) (rows (frame_of both_gaps h)).
Proof.
  destruct (identify_missing_data_cases ["Crit"%string] both_gaps eq_refl)
    as (h & log & E & _).
  exists h, log; split; [exact E|].
  apply (identify_missing_data_keeps_eligible _ _ _ _ _ E).
  - do 3 right; left; reflexivity.
  - left; reflexivity.
  - intros k [<- | [<- | []]]; simpl; intros Hc; [discriminate|].
    destruct Hc as [Hc | []]; discriminate.
Defined.

(** ** [outliers] and [_filter_outliers] *)

(** [outliers] returns exactly when the group has a mean and the two bounds
    differ; otherwise [pd.cut] raises [ValueError]. *)
Theorem outliers_returns_iff SD group :
  match outliers SD group with
  | Ret _ =>
      exists lo up, outliers_bounds SD group = (Some lo, Some up) /\ lo < up
  | Raise (ValueError _) =>
      ~ exists lo up, outliers_bounds SD group = (Some lo, Some up) /\ lo < up
  | Raise _ => False
  end.
Proof.
  unfold outliers.
  destruct (outliers_bounds SD group) as [[lo|] [up|]] eqn:Hb;
    try (intros (lo' & up' & [=] & _)).
  unfold cut; simpl.
  destruct (Rle_b lo up) eqn:E1; simpl.
  - destruct (Rlt_b lo up) eqn:E2; simpl.
    + apply Rlt_b_true in E2; eauto.
    + apply Rlt_b_false in E2; intros (lo' & up' & [= <- <-] & H); lra.
  - apply Rle_b_false in E1; intros (lo' & up' & [= <- <-] & H); lra.
Qed.

Lemma outliers_inv SD group out :
  outliers SD group = Ret out ->
  exists lo up,
    outliers_bounds SD group = (Some lo, Some up) /\ lo < up /\
    out = map (fun v => (cut_label NInf lo up v, trim (Some lo) (Some up) v)) group.
Proof.
  intros E.
  assert (H : exists lo up, outliers_bounds SD group = (Some lo, Some up) /\ lo < up).
  { unfold outliers in E.
    destruct (outliers_bounds SD group) as [[lo|] [up|]]; try discriminate.
    unfold cut in E; simpl in E.
    destruct (Rle_b lo up); [|discriminate].
    destruct (Rlt_b lo up) eqn:E2; [|discriminate].
    apply Rlt_b_true in E2; eauto. }
  destruct H as (lo & up & Hb & Hlt).
  exists lo, up; split; [assumption|]; split; [assumption|].
  rewrite (outliers_returns SD group lo up Hb Hlt) in E; congruence.
Qed.

Lemma outliers_raise_kind SD group e :
  outliers SD group = Raise e -> exists m, e = ValueError m.
Proof.
  unfold outliers.
  destruct (outliers_bounds SD group) as [[lo|] [up|]];
    try (intros [= <-]; eauto).
  unfold cut; simpl.
  destruct (negb _); [intros [= <-]; eauto|].
  destruct (negb _); [intros [= <-]; eauto | discriminate].
Qed.

(** A group without any value (its values are all NaN) makes [outliers]
    raise: the bounds are NaN and [pd.cut] rejects them. *)
Lemma outliers_empty_group SD group :
  (forall x, In x group -> x = None) ->
  exists m, outliers SD group = Raise (ValueError m).
Proof.
  intros H.
  destruct (outliers SD group) as [out|e] eqn:E.
  - destruct (outliers_inv _ _ _ E) as (lo & up & Hb & _).
    unfold outliers_bounds in Hb.
    rewrite (proj2 (mean_nan group) H) in Hb; discriminate.
  - destruct (outliers_raise_kind _ _ _ E) as [m ->]; eauto.
Qed.

(** In what [outliers] returns, label and value agree: [Below] goes with
    the lower bound, [Above] with the upper bound, [Ok] with the value
    itself, and NaN stays NaN without a label. *)
Theorem outliers_labels_match SD group out lo up i v lab t :
  outliers SD group = Ret out ->
  outliers_bounds SD group = (Some lo, Some up) ->
  nth_error group i = Some v ->
  nth_error out i = Some (lab, t) ->
  match lab with
  | Some Below => t = Some lo
  | Some Ok => t = v
  | Some Above => t = Some up
  | None => v = None /\ t = None
  end.
Proof.
  intros E Hb Hv Ho.
  destruct (outliers_inv SD group out E) as (lo' & up' & Hb' & Hlt & ->).
  rewrite Hb in Hb'; injection Hb' as <- <-.
  rewrite nth_error_map, Hv in Ho; simpl in Ho; injection Ho as <- <-.
  destruct v as [x|]; [|split; reflexivity].
  unfold cut_label, trim, fgt, flt; simpl.
  destruct (Rle_b x lo) eqn:E1;
    [apply Rle_b_true in E1 | apply Rle_b_false in E1].
  - destruct (Rlt_b up x) eqn:E2; [apply Rlt_b_true in E2; lra|].
    destruct (Rlt_b x lo) eqn:E3; [reflexivity|].
    apply Rlt_b_false in E3; f_equal; lra.
  - destruct (Rle_b x up) eqn:E2;
      [apply Rle_b_true in E2 | apply Rle_b_false in E2].
    + destruct (Rlt_b up x) eqn:E3; [apply Rlt_b_true in E3; lra|].
      destruct (Rlt_b x lo) eqn:E4; [apply Rlt_b_true in E4; lra | reflexivity].
    + destruct (Rlt_b up x) eqn:E3; [reflexivity | apply Rlt_b_false in E3; lra].
Qed.

(** Every value that [outliers] returns lies between the two bounds. *)
Theorem outliers_values_bounded SD group out lo up lab t :
  outliers SD group = Ret out ->
  outliers_bounds SD group = (Some lo, Some up) ->
  In (lab, Some t) out ->
  lo <= t <= up.
Proof.
  intros E Hb Hin.
  destruct (outliers_inv SD group out E) as (lo' & up' & Hb' & Hlt & ->).
  rewrite Hb in Hb'; injection Hb' as <- <-.
  apply in_map_iff in Hin as ([x|] & Hx & _); [|discriminate].
  injection Hx as _ Hx; revert Hx.
  unfold trim, fgt, flt.
  destruct (Rlt_b up x) eqn:E1; [intros [= <-]; lra|].
  destruct (Rlt_b x lo) eqn:E2; intros [= <-]; [lra|].
  apply Rlt_b_false in E1, E2; lra.
Qed.

Lemma single_observation_bounds SD group x :
  count group = 1%nat -> In (Some x) group ->
  outliers_bounds SD group = (Some (x - SD * 0.1), Some (x + SD * 0.1)).
Proof.
  intros Hc Hx.
  unfold outliers_bounds, std, mean; rewrite Hc; simpl.
  rewrite (nansum_single group x Hc Hx); f_equal; f_equal; lra.
Qed.

(** With a positive multiplier, a group that has a single observation is
    never altered: the observation is labelled [Ok] and keeps its value. *)
Theorem outliers_single_observation SD group :
  0 < SD -> count group = 1%nat ->
  outliers SD group =
  Ret (map (fun v => (match v with Some _ => Some Ok | None => None end, v)) group).
Proof.
  intros HSD Hc.
  assert (Hx : exists x, In (Some x) group).
  { destruct (mean group) eqn:E; [|].
    - clear E; revert Hc; unfold count.
      induction group as [|[v|] t IH]; simpl; intros Hc;
        [discriminate | exists v; auto |].
      destruct (IH Hc) as [x Hx]; eauto.
    - unfold mean in E; rewrite Hc in E; discriminate. }
  destruct Hx as [x Hx].
  pose proof (single_observation_bounds SD group x Hc Hx) as Hb.
  rewrite (outliers_returns SD group _ _ Hb) by lra.
  f_equal; apply map_ext_in; intros [v|] Hv; [|reflexivity].
  assert (v = x).
  { clear Hb; revert Hc Hx Hv; unfold count.
    induction group as [|[w|] t IH]; simpl; intros Hc Hx Hv; [destruct Hx | |].
    - injection Hc as Hc; pose proof (proj1 (count_zero t) Hc) as Hn.
      destruct Hx as [[= <-] | Hx]; [|apply Hn in Hx; discriminate].
      destruct Hv as [[= <-] | Hv]; [reflexivity | apply Hn in Hv; discriminate].
    - destruct Hx as [|Hx]; [discriminate|].
      destruct Hv as [|Hv]; [discriminate|]; auto. }
  subst v; unfold cut_label, trim, fgt, flt; simpl.
  rdec; reflexivity.
Qed.

Lemma outliers_single_observation_witness :
  outliers 2 [None; Some 300] = Ret [(None, None); (Some Ok, Some 300)].
Proof.
  apply (outliers_single_observation 2 [None; Some 300]); [lra | reflexivity].
Defined.

Lemma lone_observation_bounds :
  outliers_bounds 2 [None; Some 300] = (Some (300 - 2 * 0.1), Some (300 + 2 * 0.1)).
Proof. apply single_observation_bounds; [reflexivity | right; left; reflexivity]. Qed.

Lemma lone_observation_outliers :
  outliers 2 [None; Some 300] = Ret [(None, None); (Some Ok, Some 300)].
Proof.
  rewrite (outliers_returns _ _ _ _ lone_observation_bounds) by lra.
  unfold cut_label, trim, fgt, flt; simpl; rdec; reflexivity.
Qed.

Lemma outliers_labels_match_witness : Some 300 = Some 300.
Proof.
  exact (outliers_labels_match 2 [None; Some 300] _ _ _ 1%nat (Some 300)
           (Some Ok) (Some 300)
           lone_observation_outliers lone_observation_bounds eq_refl eq_refl).
Defined.

Lemma outliers_values_bounded_witness : 300 - 2 * 0.1 <= 300 <= 300 + 2 * 0.1.
Proof.
  apply (outliers_values_bounded 2 [None; Some 300] _ _ _ (Some Ok) 300
           lone_observation_outliers lone_observation_bounds).
  right; left; reflexivity.
Defined.

Lemma apply_outliers_raise_kind SD kf rs ks e :
  apply_outliers SD kf rs ks = Raise e -> exists m, e = ValueError m.
Proof.
  induction ks as [|k t IH]; simpl; [discriminate|].
  destruct (outliers SD (map RTremoveVal (group_of kf k rs))) as [out|e'] eqn:E.
  - destruct (apply_outliers SD kf rs t) as [rest|e'']; [discriminate|].
    intros [= <-]; apply IH; reflexivity.
  - intros [= <-]; eapply outliers_raise_kind; eassumption.
Qed.

Lemma apply_outliers_raises SD kf rs ks k e :
  In k ks -> outliers SD (map RTremoveVal (group_of kf k rs)) = Raise e ->
  exists m, apply_outliers SD kf rs ks = Raise (ValueError m).
Proof.
  intros Hk Hr.
  destruct (apply_outliers SD kf rs ks) as [out|e'] eqn:E.
  - exfalso; revert out E; induction ks as [|a t IH]; [destruct Hk|].
    simpl; intros out.
    destruct (outliers SD (map RTremoveVal (group_of kf a rs))) as [o|] eqn:Ea;
      [|discriminate].
    destruct (apply_outliers SD kf rs t) as [rest|]; [|discriminate].
    destruct Hk as [-> | Hk]; [congruence|].
    intros _; eapply IH; [assumption | reflexivity].
  - destruct (apply_outliers_raise_kind _ _ _ _ _ E) as [m ->]; eauto.
Qed.

(** A table in which some group of the participant perspective has no
    value at all makes the winsorizer raise [ValueError]: the groups that
    the missing-data stage reports and leaves in place stop the pipeline
    here. *)
Theorem filter_outliers_missing_group df items SD r :
  has_column "RTremoveVal" df = true ->
  In r (rows df) ->
  (forall r', In r' (rows df) -> ppt_key r' = ppt_key r -> RTremoveVal r' = None) ->
  exists m, _filter_outliers df true items SD = Raise (ValueError m).
Proof.
  intros Hc Hr Hnan.
  destruct (outliers_empty_group SD
              (map RTremoveVal (group_of ppt_key (ppt_key r) (rows df))))
    as [m Hm].
  { intros x Hx; apply in_map_iff in Hx as (r' & <- & Hr').
    apply filter_In in Hr' as [Hr' Hk]; apply gkey_eqb_eq in Hk; auto. }
  assert (Hk : In (ppt_key r) (unique gkey_eqb (map ppt_key (rows df))))
    by (apply (unique_In _ gkey_eqb_eq), in_map; assumption).
  destruct (apply_outliers_raises SD ppt_key (rows df) _ _ _ Hk Hm) as [m' Hm'].
  unfold _filter_outliers, filter_pass; rewrite Hc; simpl negb; cbv iota.
  rewrite Hm'; eauto.
Qed.

Lemma filter_outliers_missing_group_witness :
  exists m, _filter_outliers scenario_B true true 2 = Raise (ValueError m).
Proof.
  apply (filter_outliers_missing_group scenario_B true 2 (removed 0 1 "Crit" 1 150)).
  - reflexivity.
  - left; reflexivity.
  - intros r' [<- | []] _; reflexivity.
Defined.

Lemma filter_pass_inv SD by_ppt total df out log :
  filter_pass SD by_ppt total df = Ret (out, log) ->
  exists res,
    apply_outliers SD (if by_ppt then ppt_key else item_key) (rows df)
      (unique gkey_eqb (map (if by_ppt then ppt_key else item_key) (rows df)))
    = Ret res /\
    rows out = map (fun r => (if by_ppt then set_by_ppt else set_by_item) r
                               (at_index (index r) res)) (rows df).
Proof.
  unfold filter_pass.
  destruct (negb (has_column "RTremoveVal" df)); [discriminate|].
  destruct (apply_outliers _ _ _ _) as [res|]; [|discriminate].
  intros [= <- _]; exists res; split; reflexivity.
Qed.

(** A pass of the winsorizer keeps every row, in order, with its identity
    and the two columns of the extreme-value filter, and it leaves the two
    columns of the other perspective as they were. *)
Theorem filter_pass_frame SD by_ppt total df out log :
  filter_pass SD by_ppt total df = Ret (out, log) ->
  map filtered (rows out) = map filtered (rows df) /\
  map (other_perspective by_ppt) (rows out) =
  map (other_perspective by_ppt) (rows df).
Proof.
  intros E; destruct (filter_pass_inv _ _ _ _ _ _ E) as (res & _ & ->).
  rewrite !map_map; split; apply map_ext; intros r; destruct by_ppt; reflexivity.
Qed.

(** [_filter_outliers] as a whole keeps the rows, their identity and the two
    columns of the extreme-value filter. *)
Theorem filter_outliers_keeps_rows df ppt items SD out log :
  _filter_outliers df ppt items SD = Ret (out, log) ->
  map filtered (rows out) = map filtered (rows df).
Proof.
  unfold _filter_outliers.
  destruct (if ppt then _ else _) as [[df1 log1]|] eqn:E1; [|discriminate].
  destruct (if items then _ else _) as [[df2 log2]|] eqn:E2; [|discriminate].
  intros [= <- _].
  assert (Hpass : forall by_ppt total d d' l,
             filter_pass SD by_ppt total d = Ret (d', l) ->
             map filtered (rows d') = map filtered (rows d)).
  { intros by_ppt total d d' l E.
    destruct (filter_pass_inv _ _ _ _ _ _ E) as (res & _ & ->).
    rewrite map_map; apply map_ext; intros r; destruct by_ppt; reflexivity. }
  transitivity (map filtered (rows df1)).
  - destruct items; [|injection E2 as <- _; reflexivity].
    apply (Hpass _ _ _ _ _ E2).
  - destruct ppt; [|injection E1 as <- _; reflexivity].
    apply (Hpass _ _ _ _ _ E1).
Qed.

Lemma scenario_A_pass :
  exists out log, filter_pass 2 true 2 scenario_A_filtered = Ret (out, log).
Proof.
  unfold filter_pass; simpl.
  rewrite lone_observation_outliers; simpl; eauto.
Qed.

Lemma filter_pass_frame_witness :
  exists out,
    map filtered (rows out) = map filtered (rows scenario_A_filtered) /\
    map (other_perspective true) (rows out) =
    map (other_perspective true) (rows scenario_A_filtered).
Proof.
  destruct scenario_A_pass as (out & log & E).
  exists out; exact (filter_pass_frame _ _ _ _ _ _ E).
Defined.

Lemma filter_outliers_keeps_rows_witness :
  exists out, map filtered (rows out) = map filtered (rows scenario_A_filtered).
Proof.
  destruct scenario_A_outliers as (out & log & E).
  exists out; exact (filter_outliers_keeps_rows _ _ _ _ _ _ E).
Defined.

(** *** Each row is winsorized against its own group *)

Lemma NoDup_map_inj {A B : Type} (f : A -> B) (l : list A) x y :
  NoDup (map f l) -> In x l -> In y l -> f x = f y -> x = y.
Proof.
  induction l as [|a t IH]; simpl; [intros _ []|].
  intros Hnd Hx Hy E; inversion Hnd as [|? ? Hna Hnt]; subst.
  destruct Hx as [-> | Hx], Hy as [-> | Hy]; auto.
  - destruct Hna; rewrite E; apply in_map; assumption.
  - destruct Hna; rewrite <- E; apply in_map; assumption.
Qed.

Lemma group_labels_distinct (keep : Row -> bool) (rs : list Row) :
  NoDup (map index rs) -> NoDup (map index (filter keep rs)).
Proof.
  induction rs as [|a t IH]; simpl; intros Hnd; [assumption|].
  inversion Hnd as [|? ? Hna Hnt]; subst.
  destruct (keep a); simpl; [|auto].
  constructor; [|auto].
  intros H; apply Hna; apply in_map_iff in H as (x & E & Hx).
  apply filter_In in Hx as [Hx _]; rewrite <- E; apply in_map; assumption.
Qed.

Lemma at_index_skip i l1 l2 :
  ~ In i (map fst l1) -> at_index i (l1 ++ l2) = at_index i l2.
Proof.
  induction l1 as [|[j v] t IH]; simpl; [reflexivity|].
  intros H; destruct (Nat.eqb_spec i j) as [-> | _]; [destruct H; auto|].
  apply IH; intros Hin; apply H; auto.
Qed.

Lemma at_index_block (G : Row -> option Band * option R) g rest r :
  NoDup (map index g) -> In r g ->
  at_index (index r) (combine (map index g) (map G g) ++ rest) = G r.
Proof.
  induction g as [|a t IH]; simpl; [intros _ []|].
  intros Hnd Hr; inversion Hnd as [|? ? Hna Hnt]; subst.
  destruct (Nat.eqb_spec (index r) (index a)) as [E | Hne].
  - destruct Hr as [-> | Hr]; [reflexivity|].
    destruct Hna; rewrite <- E; apply in_map; assumption.
  - destruct Hr as [-> | Hr]; [congruence | auto].
Qed.

Lemma combine_labels {A B : Type} (l : list A) (l' : list B) x :
  In x (map fst (combine l l')) -> In x l.
Proof.
  revert l'; induction l as [|a t IH]; intros [|b t']; simpl; try tauto.
  intros [<- | H]; eauto.
Qed.

Lemma apply_outliers_at SD kf rs ks res r :
  apply_outliers SD kf rs ks = Ret res ->
  NoDup (map index rs) -> In r rs -> In (kf r) ks ->
  exists lo up,
    outliers_bounds SD (map RTremoveVal (group_of kf (kf r) rs)) = (Some lo, Some up) /\
    lo < up /\
    at_index (index r) res =
    (cut_label NInf lo up (RTremoveVal r), trim (Some lo) (Some up) (RTremoveVal r)).
Proof.
  intros E Hnd Hr; revert res E.
  induction ks as [|k t IH]; simpl; [intros _ _ []|].
  intros res.
  destruct (outliers SD (map RTremoveVal (group_of kf k rs))) as [out|] eqn:Eo;
    [|discriminate].
  destruct (apply_outliers SD kf rs t) as [rest|] eqn:Et; [|discriminate].
  intros [= <-] Hk.
  destruct (gkey_eqb (kf r) k) eqn:Ek.
  - apply gkey_eqb_eq in Ek; subst k.
    destruct (outliers_inv _ _ _ Eo) as (lo & up & Hb & Hlt & ->).
    exists lo, up; split; [assumption|]; split; [assumption|].
    rewrite map_map.
    apply (at_index_block
             (fun x => (cut_label NInf lo up (RTremoveVal x),
                        trim (Some lo) (Some up) (RTremoveVal x)))).
    + apply group_labels_distinct; assumption.
    + apply filter_In; split; [assumption | now apply gkey_eqb_eq].
  - assert (Hin : In (kf r) t).
    { destruct Hk as [Hk | Hk]; [|assumption].
      symmetry in Hk; apply (proj2 (gkey_eqb_eq (kf r) k)) in Hk; congruence. }
    destruct (IH rest eq_refl Hin) as (lo & up & Hb & Hlt & Hat).
    exists lo, up; split; [assumption|]; split; [assumption|].
    rewrite at_index_skip; [assumption|].
    intros Hl; apply combine_labels, in_map_iff in Hl as (a & Ea & Ha).
    apply filter_In in Ha as [Ha Hka]; apply gkey_eqb_eq in Hka.
    rewrite (NoDup_map_inj index rs a r Hnd Ha Hr Ea) in Hka.
    rewrite (proj2 (gkey_eqb_eq _ _) Hka) in Ek; discriminate.
Qed.

(** In a table with distinct row labels, a pass of the winsorizer gives each
    row the label and the value computed from the bounds of the row's own
    group: no other group enters. *)
Theorem filter_pass_own_group SD by_ppt total df out log i r :
  filter_pass SD by_ppt total df = Ret (out, log) ->
  NoDup (map index (rows df)) ->
  nth_error (rows df) i = Some r ->
  exists r' lo up,
    nth_error (rows out) i = Some r' /\
    outliers_bounds SD
      (map RTremoveVal
         (group_of (if by_ppt then ppt_key else item_key)
                   ((if by_ppt then ppt_key else item_key) r) (rows df)))
    = (Some lo, Some up) /\
    lo < up /\
    perspective by_ppt r' =
    (cut_label NInf lo up (RTremoveVal r), trim (Some lo) (Some up) (RTremoveVal r)).
Proof.
  intros E Hnd Hi.
  destruct (filter_pass_inv _ _ _ _ _ _ E) as (res & Ea & Hrows).
  assert (Hr : In r (rows df)) by (eapply nth_error_In; eassumption).
  destruct (apply_outliers_at _ _ _ _ _ r Ea Hnd Hr) as (lo & up & Hb & Hlt & Hat).
  { apply (unique_In _ gkey_eqb_eq), in_map; assumption. }
  eexists; exists lo, up; split; [rewrite Hrows, nth_error_map, Hi; reflexivity|].
  split; [assumption|]; split; [assumption|].
  rewrite Hat; destruct by_ppt; reflexivity.
Qed.

Lemma filter_pass_own_group_witness :
  exists r' lo up,
    outliers_bounds 2
      (map RTremoveVal
         (group_of ppt_key (ppt_key (kept 1 1 "Crit" 1 300))
                   (rows scenario_A_filtered)))
    = (Some lo, Some up) /\
    lo < up /\
    perspective true r' =
    (cut_label NInf lo up (Some 300), trim (Some lo) (Some up) (Some 300)).
Proof.
  destruct scenario_A_pass as (out & log & E).
  destruct (filter_pass_own_group _ _ _ _ _ _ 1%nat (kept 1 1 "Crit" 1 300) E)
    as (r' & lo & up & _ & H).
  - repeat constructor; simpl; intuition discriminate.
  - reflexivity.
  - exists r', lo, up; exact H.
Defined.

(** * Further properties of [get_RTdata] *)

Section Hoare.
Context {A B : Type}.

Lemma hoare_bind (P : State -> Prop) (m : M A) (f : A -> M B) Q R E :
  hoare P m Q E -> (forall a, hoare (Q a) (f a) R E) -> hoare P (bind m f) R E.
Proof.
  intros Hm Hf s r s' HP; unfold bind.
  destruct (m s) as [[a|e] s1] eqn:Em.
  - intros Ef; exact (Hf a s1 r s' (Hm s (Ret a) s1 HP Em) Ef).
  - intros [= <- <-]; exact (Hm s (Raise e) s1 HP Em).
Qed.

Lemma hoare_weaken (P P' : State -> Prop) (m : M A) (Q Q' : A -> State -> Prop) E :
  hoare P' m Q' E -> (forall s, P s -> P' s) -> (forall a s, Q' a s -> Q a s) ->
  hoare P m Q E.
Proof.
  intros Hm HP HQ s r s' Hs Em.
  specialize (Hm s r s' (HP s Hs) Em); destruct r; auto.
Qed.

Lemma hoare_ret (P : State -> Prop) (a : A) E : hoare P (ret a) (fun b s => b = a /\ P s) E.
Proof. intros s r s' HP [= <- <-]; auto. Qed.

Lemma hoare_raise (P : State -> Prop) e (Q : A -> State -> Prop) :
  hoare P (raise e) Q P.
Proof. intros s r s' HP [= <- <-]; assumption. Qed.

Lemma hoare_lift (P : State -> Prop) (x : res A) :
  hoare P (lift x) (fun a s => x = Ret a /\ P s) P.
Proof. intros s r s' HP [= <- <-]; destruct x; auto. Qed.
End Hoare.

Lemma hoare_load (P : State -> Prop) l E :
  hoare P (load l) (fun o s => o = nth l (heap s) NotDF /\ P s) E.
Proof. intros s r s' HP [= <- <-]; auto. Qed.

Lemma hoare_get_self (P : State -> Prop) E :
  hoare P get_self (fun p s => p = self s /\ P s) E.
Proof. intros s r s' HP [= <- <-]; auto. Qed.

(** ** A failed call assigns nothing *)


Section KeepsSelf.
Variable p : Project.

Lemma keeps_bind {A B : Type} (m : M A) (f : A -> M B) :
  keeps_self p m -> (forall a, keeps_self p (f a)) -> keeps_self p (bind m f).
Proof. intros Hm Hf; eapply hoare_bind; [exact Hm | exact Hf]. Qed.

Lemma keeps_ret {A : Type} (a : A) : keeps_self p (ret a).
Proof. intros s r s' HP [= <- <-]; assumption. Qed.

Lemma keeps_raise {A : Type} e : keeps_self p (raise (A := A) e).
Proof. intros s r s' HP [= <- <-]; assumption. Qed.

Lemma keeps_lift {A : Type} (x : res A) : keeps_self p (lift x).
Proof. intros s r s' HP [= <- <-]; destruct x; assumption. Qed.

Lemma keeps_print ms : keeps_self p (print ms).
Proof. intros s r s' HP [= <- <-]; assumption. Qed.

Lemma keeps_alloc o : keeps_self p (alloc o).
Proof. intros s r s' HP [= <- <-]; assumption. Qed.

Lemma keeps_load l : keeps_self p (load l).
Proof. intros s r s' HP [= <- <-]; assumption. Qed.

Lemma keeps_store l o : keeps_self p (store l o).
Proof. intros s r s' HP [= <- <-]; assumption. Qed.

Lemma keeps_get_self : keeps_self p get_self.
Proof. intros s r s' HP [= <- <-]; assumption. Qed.

Lemma keeps_in_place f df : keeps_self p (in_place f df).
Proof.
  unfold in_place.
  apply keeps_bind; [apply keeps_load|]; intros [d|]; [|apply keeps_raise].
  apply keeps_bind; [apply keeps_lift|]; intros r.
  apply keeps_bind; [apply keeps_store|]; intros ?.
  apply keeps_bind; [apply keeps_print|]; intros ?; apply keeps_ret.
Qed.

Lemma keeps_handing f df : keeps_self p (handing f df).
Proof.
  unfold handing.
  apply keeps_bind; [apply keeps_load|]; intros [d|]; [|apply keeps_raise].
  apply keeps_bind; [apply keeps_lift|]; intros r.
  apply keeps_bind; [apply keeps_print|]; intros ?.
  destruct (fst r); [apply keeps_ret | apply keeps_alloc].
Qed.

Lemma keeps_file_summary df : keeps_self p (file_summary df).
Proof.
  unfold file_summary.
  apply keeps_bind; [apply keeps_print|]; intros ?.
  destruct (unique String.eqb (map Condition (rows df))); [apply keeps_raise|].
  apply keeps_bind; [apply keeps_print|]; intros ?; apply keeps_print.
Qed.

Lemma keeps_extremes_step re df : keeps_self p (extremes_step re df).
Proof.
  unfold extremes_step.
  assert (Hskip : keeps_self p (print [ExtremesSkipped] ;;; ret df))
    by (apply keeps_bind; [apply keeps_print | intros ?; apply keeps_ret]).
  destruct re as [[|low [|high [|x t]]]| |]; try assumption;
    try apply keeps_ret; try apply keeps_raise.
  destruct (Rlt_b low high); [apply keeps_in_place | apply keeps_raise].
Qed.

Lemma keeps_outliers_step fo df : keeps_self p (outliers_step fo df).
Proof.
  unfold outliers_step.
  destruct fo as [sd| |]; [| apply keeps_ret | apply keeps_raise].
  destruct (Rlt_b sd 0); [apply keeps_raise|].
  apply keeps_bind; [|intros ?; apply keeps_in_place].
  destruct (_ || _); [apply keeps_print | apply keeps_ret].
Qed.
End KeepsSelf.

(** Whatever makes [get_RTdata] raise, and at whatever stage, the project
    keeps its attributes: [data] and [RTdata] refer to the objects they
    referred to before the call, so no partial result is ever published. *)
Theorem get_RTdata_raise_keeps_self cc sm re im fo s e s' :
  get_RTdata cc sm re im fo s = (Raise e, s') -> self s' = self s.
Proof.
  intros E.
  assert (H : hoare (fun s0 => self s0 = self s) (get_RTdata cc sm re im fo)
                    (fun _ _ => True) (fun s0 => self s0 = self s)).
  { unfold get_RTdata.
    eapply hoare_bind; [apply keeps_get_self|]; intros me.
    eapply hoare_bind; [apply keeps_load|]; intros [d|]; [|apply hoare_raise].
    eapply hoare_bind; [apply keeps_lift|]; intros missing.
    eapply hoare_bind; [apply keeps_lift|]; intros ?.
    eapply hoare_bind; [apply keeps_alloc|]; intros df.
    eapply hoare_bind; [apply keeps_lift|]; intros ccs.
    eapply hoare_bind;
      [destruct sm; [apply keeps_file_summary | apply keeps_ret]|]; intros ?.
    eapply hoare_bind; [apply keeps_extremes_step|]; intros df1.
    eapply hoare_bind;
      [destruct im; [apply keeps_handing | apply keeps_ret]|]; intros df2.
    eapply hoare_bind; [apply keeps_outliers_step|]; intros df3.
    eapply hoare_bind; [apply keeps_load|]; intros [d3|]; [|apply hoare_raise].
    intros s0 r s1 _ Er; unfold bind, alloc, set_RTdata, print in Er.
    injection Er as <- _; exact I. }
  exact (H s (Raise e) s' eq_refl E).
Qed.

Lemma get_RTdata_raise_keeps_self_witness : self no_RT_column = self no_RT_column.
Proof.
  apply (get_RTdata_raise_keeps_self
           (CC_list []) true (RE_list [200; 5000]) true (FO_number 2)
           no_RT_column (NameError "col") no_RT_column).
  apply (get_RTdata_absent_column _ _ _ _ _ no_RT_column
           (mkDF ["PPT"; "WordPos"; "Condition"; "Item"]%string
                 [trial 0 1 "Crit" 1 300]) "RT"%string);
    [reflexivity | simpl; auto 6 | reflexivity].
Defined.

(** ** Skipping the extreme-value filter *)

Lemma nth_app_length {X : Type} (h : list X) (o d : X) : nth (length h) (h ++ [o]) d = o.
Proof. rewrite app_nth2, Nat.sub_diag by lia; reflexivity. Qed.

Lemma unique_nonempty {X : Type} (eqb : X -> X -> bool) (l : list X) :
  l <> [] -> unique eqb l <> [].
Proof. destruct l; simpl; [congruence | discriminate]. Qed.

Lemma file_summary_runs df s :
  rows df <> [] ->
  exists out, file_summary df s = (Ret tt, mkState (heap s) (self s) out).
Proof.
  intros Hne; unfold file_summary, bind, print; simpl.
  destruct (unique String.eqb (map Condition (rows df))) eqn:E.
  - destruct (unique_nonempty String.eqb (map Condition (rows df))); [|assumption].
    destruct (rows df); [congruence | discriminate].
  - simpl; eauto.
Qed.

Lemma extremes_step_skips re df s :
  skips_extremes re ->
  exists out, extremes_step re df s = (Ret df, mkState (heap s) (self s) out).
Proof.
  destruct s as [h p o]; unfold extremes_step.
  destruct re as [[|low [|high [|x t]]]| |]; simpl; intros H; try contradiction;
    unfold bind, print, ret; simpl; eauto.
Qed.

Lemma select_lacks_RTremoveVal d : has_column "RTremoveVal" (select d) = false.
Proof. reflexivity. Qed.

(** When the extreme-value filter is skipped ([remove_extremes] false, empty
    or of a length other than 2) and a later stage is requested, the call
    passes the validation and then raises [KeyError]: both later stages read
    the column [RTremoveVal], which only the filter writes. *)
Theorem get_RTdata_needs_extremes cc sm re im fo s d ccs :
  nth (data (self s)) (heap s) NotDF = DF d ->
  forallb (fun c => has_column c d) required_columns = true ->
  check_critical_conditions cc (select d) = Ret ccs ->
  (sm = true -> rows (select d) <> []) ->
  skips_extremes re ->
  (im = true \/ exists sd, fo = FO_number sd /\ 0 <= sd) ->
  exists s', get_RTdata cc sm re im fo s = (Raise (KeyError "RTremoveVal"), s').
Proof.
  intros Hd Hcols Hcc Hsm Hre Hlater.
  unfold get_RTdata, bind at 1 2 3 4 5 6, get_self, load, lift, alloc.
  rewrite Hd, (check_columns_complete _ _ _ Hcols); simpl check_missing; cbv iota.
  rewrite Hcc.
  set (s1 := mkState (heap s ++ [DF (select d)]) (self s) (stdout s)).
  assert (Hsum : exists out,
             (if sm then file_summary (select d) else ret tt) s1
             = (Ret tt, mkState (heap s1) (self s1) out)).
  { destruct sm; [apply file_summary_runs; auto | exists (stdout s1); reflexivity]. }
  destruct Hsum as [out1 Hsum].
  unfold bind at 1; rewrite Hsum.
  destruct (extremes_step_skips re (length (heap s))
              (mkState (heap s1) (self s1) out1) Hre) as [out2 Hext].
  unfold bind at 1; rewrite Hext; subst s1; cbn [heap self stdout].
  assert (Hdf : nth (length (heap s)) (heap s ++ [DF (select d)]) NotDF
                = DF (select d)) by apply nth_app_length.
  destruct im.
  - unfold bind at 1, handing, bind at 1, load; cbn [heap self stdout]; rewrite Hdf.
    unfold bind, lift, _identify_missing_data.
    rewrite select_lacks_RTremoveVal; simpl; eauto.
  - destruct Hlater as [[=] | (sd & -> & Hsd)].
    unfold bind at 1, ret, bind at 1, outliers_step.
    replace (Rlt_b sd 0) with false by (symmetry; apply Rlt_b_false; lra).
    unfold bind at 1.
    destruct (Rlt_b sd 1 || Rlt_b 3 sd); unfold print, ret, in_place, bind, load;
      cbn [heap self stdout]; rewrite Hdf; unfold lift, _filter_outliers, filter_pass;
      rewrite select_lacks_RTremoveVal; simpl; eauto.
Qed.

(** The default table of the examples, as a project. *)
Lemma get_RTdata_needs_extremes_witness :
  exists s',
    get_RTdata (CC_list [Str "Crit"]) true RE_falsy true (FO_number 2) scenario_A
    = (Raise (KeyError "RTremoveVal"), s').
Proof.
  apply (get_RTdata_needs_extremes _ _ _ _ _ scenario_A
           (mkDF required_columns [trial 0 1 "Crit" 1 180; trial 1 1 "Crit" 1 300])
           ["Crit"%string]).
  - reflexivity.
  - reflexivity.
  - reflexivity.
  - intros _; discriminate.
  - exact I.
  - left; reflexivity.
Defined.

(** ** Where the rows of [RTdata] come from *)

Lemma hoare_pure {A : Type} (P : State -> Prop) (phi : Prop) (m : M A) Q E :
  (forall s, P s -> phi) -> (phi -> hoare P m Q E) -> hoare P m Q E.
Proof. intros H1 H2 s r s' HP; apply H2; [eapply H1; eassumption | assumption]. Qed.

Lemma nth_update_same l o h : (l < length h)%nat -> nth l (update l o h) NotDF = o.
Proof.
  revert l; induction h as [|x t IH]; intros [|l] H; simpl in *; try lia; auto.
  apply IH; lia.
Qed.

Lemma derived_select d0 : derived d0 (select d0).
Proof.
  intros r Hr; unfold select in Hr; simpl in Hr.
  apply in_map_iff in Hr as (r0 & <- & Hr0).
  apply filter_In in Hr0 as [Hr0 Hn].
  exists r0; split; [assumption|]; split; [|reflexivity].
  destruct (RT r0); [discriminate | discriminate].
Qed.

Lemma derived_identity d0 d d' :
  map identity (rows d') = map identity (rows d) -> derived d0 d -> derived d0 d'.
Proof.
  intros E H r Hr.
  apply (in_map identity) in Hr; rewrite E in Hr.
  apply in_map_iff in Hr as (r1 & E1 & Hr1).
  destruct (H r1 Hr1) as (r0 & H0 & Hn & E0).
  exists r0; split; [assumption|]; split; [assumption | congruence].
Qed.

Lemma identity_of_filtered l l' :
  map filtered l' = map filtered l -> map identity l' = map identity l.
Proof.
  intros E.
  assert (H : forall x, map identity x = map (fun p => fst (fst p)) (map filtered x))
    by (intros x; rewrite map_map; apply map_ext; reflexivity).
  rewrite !H, E; reflexivity.
Qed.

Section Provenance.
Variable d0 : DataFrame.

Lemma hoare_frame_print l ms :
  hoare (frame_at (derived d0) l) (print ms)
        (fun _ => frame_at (derived d0) l) (fun _ => True).
Proof. intros s r s' HP [= <- <-]; exact HP. Qed.

Lemma hoare_frame_ret l :
  hoare (frame_at (derived d0) l) (ret l)
        (fun l' => frame_at (derived d0) l') (fun _ => True).
Proof. intros s r s' HP [= <- <-]; exact HP. Qed.

Lemma hoare_frame_raise {A : Type} (P : State -> Prop) e (Q : A -> State -> Prop) :
  hoare P (raise e) Q (fun _ => True).
Proof. intros s r s' HP [= <- <-]; exact I. Qed.

Lemma hoare_frame_in_place f l :
  (forall d d' log, derived d0 d -> f d = Ret (d', log) -> derived d0 d') ->
  hoare (frame_at (derived d0) l) (in_place f l)
        (fun l' => frame_at (derived d0) l') (fun _ => True).
Proof.
  intros Hf s r s' (d & Hd & HI).
  unfold in_place, bind, load, lift, store, print, ret; rewrite Hd.
  destruct (f d) as [[d' log]|e] eqn:E; intros [= <- <-]; [|exact I].
  exists d'; simpl; split; [|eapply Hf; eassumption].
  apply nth_update_same; eapply nth_DF_valid; eassumption.
Qed.

Lemma hoare_frame_handing f l :
  (forall d h log, derived d0 d -> f d = Ret (h, log) -> derived d0 (frame_of d h)) ->
  hoare (frame_at (derived d0) l) (handing f l)
        (fun l' => frame_at (derived d0) l') (fun _ => True).
Proof.
  intros Hf s r s' (d & Hd & HI).
  unfold handing, bind, load, lift, print, ret, alloc; rewrite Hd.
  destruct (f d) as [[h log]|e] eqn:E; simpl; [|intros [= <- <-]; exact I].
  specialize (Hf d h log HI E).
  destruct h as [|d']; intros [= <- <-].
  - exists d; split; assumption.
  - exists d'; simpl; split; [apply nth_app_length | assumption].
Qed.

Lemma remove_extremes_derived low high d d' log :
  derived d0 d -> _remove_extremes d low high = Ret (d', log) -> derived d0 d'.
Proof.
  intros H E; eapply derived_identity; [|eassumption].
  apply remove_extremes_inv in E as (_ & -> & _); simpl.
  rewrite map_map; apply map_ext; intros r; reflexivity.
Qed.
End Provenance.

Lemma identify_missing_data_subset cc df h log r :
  _identify_missing_data cc df = Ret (h, log) ->
  In r (rows (frame_of df h)) -> In r (rows df).
Proof.
  intros E.
  assert (Hc : has_column "RTremoveVal" df = true).
  { unfold _identify_missing_data in E.
    destruct (has_column "RTremoveVal" df); [reflexivity | discriminate]. }
  destruct (identify_missing_data_cases cc df Hc) as (h' & log' & E' & Hcase).
  rewrite E in E'; injection E' as <- <-.
  destruct Hcase as [[-> _] | (_ & _ & Hrows)]; [auto|].
  intros Hr; apply Hrows in Hr; tauto.
Qed.

Section Pipeline.
Variable d0 : DataFrame.

Lemma hoare_extremes_step re l :
  hoare (frame_at (derived d0) l) (extremes_step re l)
        (fun l' => frame_at (derived d0) l') (fun _ => True).
Proof.
  unfold extremes_step.
  assert (Hskip : hoare (frame_at (derived d0) l) (print [ExtremesSkipped] ;;; ret l)
                        (fun l' => frame_at (derived d0) l') (fun _ => True)).
  { eapply hoare_bind; [apply hoare_frame_print|]; intros ?; apply hoare_frame_ret. }
  destruct re as [[|low [|high [|x t]]]| |]; try assumption;
    try apply hoare_frame_ret; try apply hoare_frame_raise.
  destruct (Rlt_b low high); [|apply hoare_frame_raise].
  apply hoare_frame_in_place; intros d d' log; apply remove_extremes_derived.
Qed.

Lemma hoare_outliers_step fo l :
  hoare (frame_at (derived d0) l) (outliers_step fo l)
        (fun l' => frame_at (derived d0) l') (fun _ => True).
Proof.
  unfold outliers_step.
  destruct fo as [sd| |]; [| apply hoare_frame_ret | apply hoare_frame_raise].
  destruct (Rlt_b sd 0); [apply hoare_frame_raise|].
  eapply hoare_bind with (Q := fun _ => frame_at (derived d0) l).
  - destruct (_ || _); [apply hoare_frame_print|].
    intros s r s' HP [= <- <-]; exact HP.
  - intros ?; apply hoare_frame_in_place; intros d d' log H E.
    eapply derived_identity; [|eassumption].
    apply identity_of_filtered.
    eapply filter_outliers_keeps_rows; eassumption.
Qed.

Lemma hoare_missing_step (im : bool) cc l :
  hoare (frame_at (derived d0) l)
        (if im then handing (_identify_missing_data cc) l else ret l)
        (fun l' => frame_at (derived d0) l') (fun _ => True).
Proof.
  destruct im; [|apply hoare_frame_ret].
  apply hoare_frame_handing; intros d h log H E r Hr.
  apply H; eapply identify_missing_data_subset; eassumption.
Qed.

Lemma hoare_file_summary l df :
  hoare (frame_at (derived d0) l) (file_summary df)
        (fun _ => frame_at (derived d0) l) (fun _ => True).
Proof.
  unfold file_summary.
  eapply hoare_bind; [apply hoare_frame_print|]; intros ?.
  destruct (unique String.eqb (map Condition (rows df))); [apply hoare_frame_raise|].
  eapply hoare_bind; [apply hoare_frame_print|]; intros ?; apply hoare_frame_print.
Qed.

Lemma hoare_get_RTdata cc sm re im fo :
  hoare (fun s => nth (data (self s)) (heap s) NotDF = DF d0)
        (get_RTdata cc sm re im fo)
        (fun _ => published d0) (fun _ => True).
Proof.
  unfold get_RTdata.
  eapply hoare_bind; [apply hoare_get_self|]; intros me.
  eapply hoare_bind; [apply hoare_load|]; intros o.
  apply hoare_pure with (phi := o = DF d0); [intros s (-> & -> & H); exact H|].
  intros ->.
  eapply hoare_bind with (Q := fun _ _ => True);
    [intros s r s' _ _; destruct r; exact I|]; intros missing.
  eapply hoare_bind with (Q := fun _ _ => True);
    [intros s r s' _ _; destruct r; exact I|]; intros ?.
  eapply hoare_bind with (Q := fun l => frame_at (derived d0) l).
  { intros s r s' _ [= <- <-]; exists (select d0); simpl.
    split; [apply nth_app_length | apply derived_select]. }
  intros df.
  eapply hoare_bind with (Q := fun _ => frame_at (derived d0) df).
  { intros s r s' HP [= <- <-]; destruct (check_critical_conditions _ _); auto. }
  intros ccs.
  eapply hoare_bind with (Q := fun _ => frame_at (derived d0) df).
  { destruct sm; [apply hoare_file_summary|].
    intros s r s' HP [= <- <-]; exact HP. }
  intros ?.
  eapply hoare_bind; [apply hoare_extremes_step|]; intros df1.
  eapply hoare_bind; [apply hoare_missing_step|]; intros df2.
  eapply hoare_bind; [apply hoare_outliers_step|]; intros df3.
  intros s r s' (d & Hd & HI).
  unfold bind, load, alloc, set_RTdata, print; rewrite Hd; simpl.
  intros [= <- <-].
  exists (length (heap s)), d; simpl.
  split; [reflexivity|]; split; [apply nth_app_length | assumption].
Qed.
End Pipeline.

Lemma reset_index_rows d r :
  In r (rows (reset_index d)) ->
  exists r1, In r1 (rows d) /\
             index_col r = Some (index r1) /\
             PPT r = PPT r1 /\ WordPos r = WordPos r1 /\
             Condition r = Condition r1 /\ Item r = Item r1 /\ RT r = RT r1.
Proof.
  unfold reset_index; simpl; intros Hr.
  apply in_map_iff in Hr as ([i r1] & <- & Hin).
  apply in_combine_r in Hin.
  exists r1; simpl; repeat split; assumption.
Qed.

Lemma reset_index_labels d :
  map index (rows (reset_index d)) = seq 0 (length (rows d)).
Proof.
  unfold reset_index; simpl; rewrite map_map.
  generalize 0%nat; induction (rows d) as [|a t IH]; simpl; intros n;
    [reflexivity | now rewrite IH].
Qed.

(** When [get_RTdata] returns, [RTdata] is a table whose first column is
    ['index'], whose rows are labelled 0, 1, 2, ... and each of whose rows
    stems from a row of [data] with a numeric reaction time: same
    participant, word position, condition, item and reaction time, the old
    label kept in the column ['index'].  The pipeline never invents a row
    and never changes an identifier or a raw reaction time. *)
Theorem get_RTdata_provenance cc sm re im fo s s' d0 :
  get_RTdata cc sm re im fo s = (Ret tt, s') ->
  nth (data (self s)) (heap s) NotDF = DF d0 ->
  exists rt d,
    RTdata (self s') = Some rt /\
    nth rt (heap s') NotDF = DF d /\
    hd_error (columns d) = Some "index"%string /\
    map index (rows d) = seq 0 (length (rows d)) /\
    forall r, In r (rows d) ->
      exists r0, In r0 (rows d0) /\ RT r0 <> None /\
                 index_col r = Some (index r0) /\
                 PPT r = PPT r0 /\ WordPos r = WordPos r0 /\
                 Condition r = Condition r0 /\ Item r = Item r0 /\ RT r = RT r0.
Proof.
  intros E Hd.
  pose proof (hoare_get_RTdata d0 cc sm re im fo s (Ret tt) s' Hd E) as H.
  destruct H as (rt & d & Hrt & Hnth & Hder).
  exists rt, (reset_index d); split; [assumption|]; split; [assumption|].
  split; [reflexivity|]; split.
  - rewrite reset_index_labels; unfold reset_index; simpl.
    rewrite length_map, length_combine, length_seq, Nat.min_id; reflexivity.
  - intros r Hr.
    destruct (reset_index_rows d r Hr) as (r1 & Hr1 & Hi & H1 & H2 & H3 & H4 & H5).
    destruct (Hder r1 Hr1) as (r0 & Hr0 & Hn & Eid).
    unfold identity in Eid; injection Eid as E1 E2 E3 E4 E5 E6.
    exists r0; repeat split; try assumption; congruence.
Qed.

Lemma get_RTdata_provenance_witness :
  exists s' rt d,
    RTdata (self s') = Some rt /\
    nth rt (heap s') NotDF = DF d /\
    hd_error (columns d) = Some "index"%string.
Proof.
  destruct scenario_A_runs as [s' E].
  destruct (get_RTdata_provenance _ _ _ _ _ _ _
              (mkDF required_columns
                    [trial 0 1 "Crit" 1 180; trial 1 1 "Crit" 1 300])
              E eq_refl) as (rt & d & H1 & H2 & H3 & _).
  exists s', rt, d; repeat split; assumption.
Defined.

(** * The other methods of [Project] *)

Lemma data_with_column_ret c s d s' :
  data_with_column c s = (Ret d, s') ->
  s' = s /\ nth (data (self s)) (heap s) NotDF = DF d /\ has_column c d = true.
Proof.
  unfold data_with_column, bind, get_self, load.
  destruct (nth (data (self s)) (heap s) NotDF) as [d1|]; [|discriminate].
  destruct (has_column c d1) eqn:E; [|discriminate].
  intros [= <- <-]; auto.
Qed.

Lemma data_with_column_run c s d :
  nth (data (self s)) (heap s) NotDF = DF d -> has_column c d = true ->
  data_with_column c s = (Ret d, s).
Proof.
  intros Hd Hc; unfold data_with_column, bind, get_self, load.
  rewrite Hd, Hc; reflexivity.
Qed.

Lemma data_with_column_state c s r s' : data_with_column c s = (r, s') -> s' = s.
Proof.
  unfold data_with_column, bind, get_self, load.
  destruct (nth (data (self s)) (heap s) NotDF) as [d1|]; [|intros [= _ <-]; reflexivity].
  destruct (has_column c d1); intros [= _ <-]; reflexivity.
Qed.

Lemma strings_In c l : In c (strings l) <-> In (Str c) l.
Proof.
  induction l as [|[s|] t IH]; simpl; [tauto | |].
  - rewrite IH; split; intros [H | H]; auto; [left; congruence | injection H; auto].
  - rewrite IH; split; [auto | intros [H | H]; [discriminate | assumption]].
Qed.

Lemma is_condition_true d i :
  is_condition d i = true <-> exists c, i = Str c /\ In c (map Condition (rows d)).
Proof.
  destruct i as [c|]; simpl.
  - rewrite str_In, (unique_In _ String.eqb_eq); split.
    + intros H; eauto.
    + intros (c' & [= ->] & H); assumption.
  - split; [discriminate | intros (c & [=] & _)].
Qed.

(** ** [get_conditions] *)

(** When [get_conditions] returns, its result is a new table with the
    columns of [data] and exactly the rows of [data] whose condition is in
    the list, in their order; every listed item is a condition and has at
    least one row in the result; the project, its tables and the output are
    as they were. *)
Theorem get_conditions_result l s a s' :
  get_conditions (CC_list l) s = (Ret a, s') ->
  exists d d',
    nth (data (self s)) (heap s) NotDF = DF d /\
    a = length (heap s) /\ heap s' = heap s ++ [DF d'] /\
    self s' = self s /\ stdout s' = stdout s /\
    columns d' = columns d /\
    (exists keep, rows d' = filter keep (rows d)) /\
    (forall r, In r (rows d') <-> In r (rows d) /\ In (Str (Condition r)) l) /\
    (forall i, In i l -> exists r, In r (rows d') /\ i = Str (Condition r)).
Proof.
  unfold get_conditions; unfold bind at 1.
  destruct l as [|i0 t] eqn:El.
  - unfold ret, bind.
    destruct (data_with_column "Condition" s) as [[d|e] s1] eqn:Ed; [|discriminate].
    apply data_with_column_ret in Ed as (-> & Hd & _).
    unfold alloc; intros [= <- <-].
    exists d, (with_conditions [] d); simpl.
    do 6 (split; [reflexivity || assumption|]).
    split; [eexists; reflexivity|]; split.
    + intros r; rewrite filter_In; simpl; split; [intros [_ [=]] | intros [_ []]].
    + intros i [].
  - rewrite <- El; unfold bind at 1.
    destruct (data_with_column "Condition" s) as [[d|e] s1] eqn:Ed; [|discriminate].
    apply data_with_column_ret in Ed as (-> & Hd & Hc).
    destruct (forallb (is_condition d) l) eqn:Hall; simpl; [|discriminate].
    unfold ret, bind.
    rewrite (data_with_column_run _ _ _ Hd Hc).
    unfold alloc; intros [= <- <-].
    assert (Hrows : forall r, In r (rows (with_conditions l d)) <->
                              In r (rows d) /\ In (Str (Condition r)) l).
    { intros r; unfold with_conditions; simpl.
      rewrite filter_In, str_In, strings_In; tauto. }
    exists d, (with_conditions l d); simpl.
    do 6 (split; [reflexivity || assumption|]).
    split; [eexists; reflexivity|]; split; [exact Hrows|].
    intros i Hi.
    rewrite forallb_forall in Hall.
    pose proof (Hall i Hi) as Hc'; apply is_condition_true in Hc'.
    destruct Hc' as (c & -> & Hin).
    apply in_map_iff in Hin as (r & <- & Hr).
    exists r; split; [|reflexivity].
    apply Hrows; split; assumption.
Qed.

(** A project over the table of the two-gap example. *)
Lemma get_conditions_result_witness :
  exists a s',
    get_conditions (CC_list [Str "Filler"])
                   (mkState [DF both_gaps] (mkProject 0 None) []) = (Ret a, s') /\
    a = 1%nat.
Proof.
  do 2 eexists; split; [reflexivity|].
  destruct (get_conditions_result [Str "Filler"]
              (mkState [DF both_gaps] (mkProject 0 None) []) _ _ eq_refl)
    as (d & d' & _ & Ha & _).
  exact Ha.
Defined.

(** An item of the list that is not a condition of the table (a string
    that does not occur, or something that is not a string) makes
    [get_conditions] raise [ValueError]; nothing is allocated. *)
Theorem get_conditions_unknown l s d i :
  nth (data (self s)) (heap s) NotDF = DF d ->
  has_column "Condition" d = true ->
  In i l -> is_condition d i = false ->
  get_conditions (CC_list l) s =
  (Raise (ValueError "One of the provided conditions is invalid."), s).
Proof.
  intros Hd Hc Hi Hn.
  unfold get_conditions; unfold bind at 1.
  destruct l as [|i0 t] eqn:El; [destruct Hi|].
  rewrite <- El in *; unfold bind at 1.
  rewrite (data_with_column_run _ _ _ Hd Hc).
  destruct (forallb (is_condition d) l) eqn:Hall; simpl; [|reflexivity].
  rewrite forallb_forall in Hall; rewrite (Hall i Hi) in Hn; discriminate.
Qed.

Lemma get_conditions_unknown_witness :
  get_conditions (CC_list [Str "Crit"; Str "Other"])
                 (mkState [DF both_gaps] (mkProject 0 None) []) =
  (Raise (ValueError "One of the provided conditions is invalid."),
   mkState [DF both_gaps] (mkProject 0 None) []).
Proof.
  apply (get_conditions_unknown _ _ both_gaps (Str "Other")).
  - reflexivity.
  - reflexivity.
  - right; left; reflexivity.
  - reflexivity.
Defined.

(** The empty list is accepted: the result is a table with the columns of
    [data] and no row. *)
Theorem get_conditions_empty s d :
  nth (data (self s)) (heap s) NotDF = DF d ->
  has_column "Condition" d = true ->
  get_conditions (CC_list []) s =
  (Ret (length (heap s)),
   mkState (heap s ++ [DF (mkDF (columns d) [])]) (self s) (stdout s)).
Proof.
  intros Hd Hc; unfold get_conditions, bind at 1, ret, bind.
  rewrite (data_with_column_run _ _ _ Hd Hc); unfold alloc, with_conditions.
  repeat f_equal.
  induction (rows d) as [|r t IH]; simpl; [reflexivity | exact IH].
Qed.

Lemma get_conditions_empty_witness :
  get_conditions (CC_list []) (mkState [DF both_gaps] (mkProject 0 None) []) =
  (Ret 1%nat,
   mkState [DF both_gaps; DF (mkDF filtered_columns [])] (mkProject 0 None) []).
Proof.
  apply (get_conditions_empty (mkState [DF both_gaps] (mkProject 0 None) []) both_gaps);
    reflexivity.
Defined.

(** ** The participants of a project *)

Lemma unique_NoDup {X : Type} (eqb : X -> X -> bool) (l : list X) :
  (forall x y, eqb x y = true <-> x = y) -> NoDup (unique eqb l).
Proof.
  intros Heq; induction l as [|a t IH]; simpl; constructor.
  - intros H; apply filter_In in H as [_ H].
    rewrite (proj2 (Heq a a) eq_refl) in H; discriminate.
  - apply NoDup_filter; assumption.
Qed.

Lemma same_members_length {X : Type} (a b : list X) :
  NoDup a -> NoDup b -> (forall x, In x a <-> In x b) -> length a = length b.
Proof.
  intros Ha Hb H; apply Nat.le_antisymm; apply NoDup_incl_length; try assumption;
    intros x Hx; apply H; assumption.
Qed.

Lemma ppts_run s d :
  nth (data (self s)) (heap s) NotDF = DF d -> has_column "PPT" d = true ->
  ppts s = (Ret (unique key_eqb (map PPT (rows d))), s).
Proof.
  intros Hd Hc; unfold ppts, bind.
  rewrite (data_with_column_run _ _ _ Hd Hc); reflexivity.
Qed.

Lemma any_not_in_ppts_state l s r s' : any_not_in_ppts l s = (r, s') -> s' = s.
Proof.
  induction l as [|x t IH]; simpl; [intros [= _ <-]; reflexivity|].
  unfold bind, ppts, bind.
  destruct (data_with_column "PPT" s) as [[d|e] s1] eqn:Ed;
    apply data_with_column_state in Ed; subst s1; [|intros [= _ <-]; reflexivity].
  unfold ret; destruct (negb _); [intros [= _ <-]; reflexivity | apply IH].
Qed.

Lemma any_not_in_ppts_run l s d :
  nth (data (self s)) (heap s) NotDF = DF d -> has_column "PPT" d = true ->
  any_not_in_ppts l s =
  (Ret (existsb (fun x => negb (isin key_eqb x (unique key_eqb (map PPT (rows d))))) l),
   s).
Proof.
  intros Hd Hc; induction l as [|x t IH]; simpl; [reflexivity|].
  unfold bind; rewrite (ppts_run _ _ Hd Hc).
  destruct (negb _); [reflexivity | exact IH].
Qed.

Lemma set_ppts_inv l s s' :
  set_ppts (PL_list l) s = (Ret tt, s') ->
  exists d,
    nth (data (self s)) (heap s) NotDF = DF d /\ has_column "PPT" d = true /\
    (forall x, In x l -> In x (map PPT (rows d))) /\
    s' = mkState (heap s ++ [DF (with_ppts l d)])
                 (mkProject (length (heap s)) (RTdata (self s))) (stdout s).
Proof.
  unfold set_ppts; unfold bind at 1.
  destruct (any_not_in_ppts l s) as [[b|e] s1] eqn:Ea; [|discriminate].
  pose proof (any_not_in_ppts_state _ _ _ _ Ea); subst s1.
  destruct b; [discriminate|].
  unfold bind at 1.
  destruct (data_with_column "PPT" s) as [[d|e] s1] eqn:Ed; [|discriminate].
  apply data_with_column_ret in Ed as (-> & Hd & Hc).
  rewrite (any_not_in_ppts_run l s d Hd Hc) in Ea; injection Ea as Ea.
  unfold bind, alloc, set_data; simpl; intros [= <-].
  exists d; split; [assumption|]; split; [assumption|]; split; [|reflexivity].
  intros x Hx.
  destruct (isin key_eqb x (unique key_eqb (map PPT (rows d)))) eqn:E.
  - apply (isin_In _ key_eqb_eq) in E.
    apply (proj1 (unique_In _ key_eqb_eq _ _)) in E; exact E.
  - assert (H : existsb (fun x => negb (isin key_eqb x
                                          (unique key_eqb (map PPT (rows d))))) l
                = true).
    { apply existsb_exists; exists x; split; [assumption | rewrite E; reflexivity]. }
    congruence.
Qed.

(** When the setter of [ppts] returns, [data] refers to a new table, the
    old table and every other object are as they were, and [RTdata] still
    refers to what it referred to: a result computed before is not
    refreshed. *)
Theorem set_ppts_rebinds l s s' :
  set_ppts (PL_list l) s = (Ret tt, s') ->
  data (self s') = length (heap s) /\
  firstn (length (heap s)) (heap s') = heap s /\
  RTdata (self s') = RTdata (self s) /\
  exists d,
    nth (data (self s)) (heap s) NotDF = DF d /\
    nth (data (self s')) (heap s') NotDF = DF (with_ppts l d).
Proof.
  intros E; destruct (set_ppts_inv _ _ _ E) as (d & Hd & _ & _ & ->); simpl.
  split; [reflexivity|]; split; [|split; [reflexivity|]].
  - rewrite firstn_app_le, firstn_all; [reflexivity | lia].
  - exists d; split; [assumption | apply nth_app_length].
Qed.

(** After the setter of [ppts] has returned, the participants of the
    project are exactly the listed ones, and [N] is the number of distinct
    listed participants. *)
Theorem set_ppts_participants l s s' :
  set_ppts (PL_list l) s = (Ret tt, s') ->
  exists ps,
    ppts s' = (Ret ps, s') /\
    (forall x, In x ps <-> In x l) /\
    N s' = (Ret (length (unique key_eqb l)), s').
Proof.
  intros E; destruct (set_ppts_inv _ _ _ E) as (d & Hd & Hc & Hin & ->).
  set (s' := mkState _ _ _).
  assert (Hd' : nth (data (self s')) (heap s') NotDF = DF (with_ppts l d))
    by apply nth_app_length.
  assert (Hp : ppts s' = (Ret (unique key_eqb (map PPT (rows (with_ppts l d)))), s'))
    by (apply ppts_run; [exact Hd' | exact Hc]).
  assert (Hmem : forall x, In x (unique key_eqb (map PPT (rows (with_ppts l d))))
                           <-> In x l).
  { intros x; rewrite (unique_In _ key_eqb_eq), in_map_iff; split.
    - intros (r & <- & Hr); unfold with_ppts in Hr; simpl in Hr.
      apply filter_In in Hr as [_ Hr]; apply (isin_In _ key_eqb_eq) in Hr; exact Hr.
    - intros Hx; destruct (proj1 (in_map_iff _ _ _) (Hin x Hx)) as (r & <- & Hr).
      exists r; split; [reflexivity|].
      unfold with_ppts; simpl; apply filter_In; split; [assumption|].
      apply (isin_In _ key_eqb_eq); assumption. }
  eexists; split; [exact Hp|]; split; [exact Hmem|].
  unfold N, bind; rewrite Hp; unfold ret; do 2 f_equal.
  apply same_members_length; try (apply unique_NoDup, key_eqb_eq).
  intros x; rewrite Hmem, (unique_In _ key_eqb_eq); reflexivity.
Qed.

(** A listed participant that the table does not contain makes the setter
    raise [ValueError] and leaves the project as it was. *)
Theorem set_ppts_unknown l s d x :
  nth (data (self s)) (heap s) NotDF = DF d -> has_column "PPT" d = true ->
  In x l -> ~ In x (map PPT (rows d)) ->
  set_ppts (PL_list l) s =
  (Raise (ValueError "One of the provided ppts is not in self.data"), s).
Proof.
  intros Hd Hc Hx Hn; unfold set_ppts, bind.
  rewrite (any_not_in_ppts_run l s d Hd Hc).
  replace (existsb _ l) with true; [reflexivity|].
  symmetry; apply existsb_exists; exists x; split; [assumption|].
  apply negb_true_iff, (isin_not_In _ key_eqb_eq).
  rewrite (unique_In _ key_eqb_eq); assumption.
Qed.

(** A project over the three participants of the two-gap example. *)
Lemma set_ppts_runs :
  exists s',
    set_ppts (PL_list [KInt 3; KInt 1; KInt 3])
             (mkState [DF both_gaps; DF scenario_B] (mkProject 0 (Some 1%nat)) [])
    = (Ret tt, s').
Proof. eexists; reflexivity. Qed.

Lemma set_ppts_rebinds_witness :
  exists s', data (self s') = 2%nat /\ RTdata (self s') = Some 1%nat.
Proof.
  destruct set_ppts_runs as [s' E]; exists s'.
  destruct (set_ppts_rebinds _ _ _ E) as (H1 & _ & H2 & _).
  split; [exact H1 | exact H2].
Defined.

Lemma set_ppts_participants_witness :
  exists s', N s' = (Ret 2%nat, s').
Proof.
  destruct set_ppts_runs as [s' E]; exists s'.
  destruct (set_ppts_participants _ _ _ E) as (ps & _ & _ & H).
  exact H.
Defined.

Lemma set_ppts_unknown_witness :
  set_ppts (PL_list [KInt 1; KInt 9])
           (mkState [DF both_gaps] (mkProject 0 None) []) =
  (Raise (ValueError "One of the provided ppts is not in self.data"),
   mkState [DF both_gaps] (mkProject 0 None) []).
Proof.
  apply (set_ppts_unknown _ _ both_gaps (KInt 9)).
  - reflexivity.
  - reflexivity.
  - right; left; reflexivity.
  - simpl; intuition discriminate.
Defined.

(** * [plot_config] and the argument checks of [_plot_reading_times] *)

Lemma strings_map_Str l : strings (map Str l) = l.
Proof. induction l as [|a t IH]; simpl; [reflexivity | now rewrite IH]. Qed.

Lemma all_str_map_Str l : forallb is_str (map Str l) = true.
Proof. induction l as [|a t IH]; simpl; auto. Qed.

Lemma map_Str_strings l : forallb is_str l = true -> map Str (strings l) = l.
Proof.
  induction l as [|[s|] t IH]; simpl; intros H; [reflexivity | | discriminate].
  now rewrite IH.
Qed.

(** The constructor returns a configuration exactly for a list of string
    conditions, a dict of words, and lists of string colours and formats
    that are as long as the list of conditions; the configuration holds
    these very arguments.  In particular every [plot_config] has one colour
    and one format per condition. *)
Theorem plot_config_init_iff conds words c fmt cfg :
  plot_config.__init__ conds words c fmt = Ret cfg <->
  conds = CC_list (map Str (plot_config.conds cfg)) /\
  words = W_dict (plot_config.words cfg) /\
  c = CC_list (map Str (plot_config.c cfg)) /\
  fmt = CC_list (map Str (plot_config.fmt cfg)) /\
  length (plot_config.c cfg) = length (plot_config.conds cfg) /\
  length (plot_config.fmt cfg) = length (plot_config.conds cfg).
Proof.
  split.
  - unfold plot_config.__init__.
    destruct conds as [lconds|]; [|discriminate].
    destruct (forallb is_str lconds) eqn:H1; simpl; [|discriminate].
    destruct words as [w|]; [|discriminate].
    destruct c as [lc|]; [|discriminate].
    destruct (forallb is_str lc) eqn:H2; simpl; [|discriminate].
    destruct (Nat.eqb_spec (length lc) (length lconds)) as [L1|]; simpl; [|discriminate].
    destruct fmt as [lfmt|]; [|discriminate].
    destruct (forallb is_str lfmt) eqn:H3; simpl; [|discriminate].
    destruct (Nat.eqb_spec (length lfmt) (length lconds)) as [L2|]; simpl; [|discriminate].
    intros [= <-]; simpl.
    rewrite !map_Str_strings by assumption.
    repeat split; try reflexivity.
    + rewrite <- (map_Str_strings lc H2), <- (map_Str_strings lconds H1) in L1.
      rewrite !length_map in L1; exact L1.
    + rewrite <- (map_Str_strings lfmt H3), <- (map_Str_strings lconds H1) in L2.
      rewrite !length_map in L2; exact L2.
  - destruct cfg as [lconds w lc lfmt]; simpl.
    intros (-> & -> & -> & -> & L1 & L2).
    unfold plot_config.__init__.
    rewrite !all_str_map_Str, !length_map, !strings_map_Str, L1, L2, !Nat.eqb_refl.
    reflexivity.
Qed.

(** ** The colour and format lists *)

Lemma fill_colours_spec n defaults c :
  match fill_colours n defaults c with
  | (Ret _, c') =>
      (n <= length c + length defaults)%nat /\
      c' = c ++ map Str (firstn (n - length c) defaults)
  | (Raise e, c') =>
      (length c + length defaults < n)%nat /\
      c' = c ++ map Str defaults /\
      e = ValueError "Too many conds and not enough colours were provided."
  end.
Proof.
  revert c; induction defaults as [|x rest IH]; intros c; simpl.
  - destruct (Nat.ltb_spec (length c) n) as [H | H].
    + split; [lia|]; split; [now rewrite app_nil_r | reflexivity].
    + split; [lia|]; rewrite firstn_nil; now rewrite app_nil_r.
  - destruct (Nat.ltb_spec (length c) n) as [H | H].
    + specialize (IH (c ++ [Str x])); rewrite length_app in IH; simpl in IH.
      destruct (fill_colours n rest (c ++ [Str x])) as [[u|e] c'].
      * destruct IH as [H1 ->]; split; [lia|].
        replace (n - length c)%nat with (S (n - (length c + 1))) by lia.
        simpl; rewrite <- app_assoc; reflexivity.
      * destruct IH as (H1 & -> & ->); split; [lia|]; split; [|reflexivity].
        rewrite <- app_assoc; reflexivity.
    + split; [lia|].
      replace (n - length c)%nat with 0%nat by lia; simpl.
      now rewrite app_nil_r.
Qed.

(** The colour loop keeps what the list held and appends default colours in
    their order.  It returns when at most nine colours are lacking, the
    list then being as long as needed; when more are lacking it raises
    [ValueError], and by then the caller's list has grown by all nine
    default colours. *)
Theorem fill_colours_result n c :
  match fill_colours n default_colours c with
  | (Ret _, c') =>
      (n <= length c + 9)%nat /\
      c' = c ++ map Str (firstn (n - length c) default_colours) /\
      (length c' = Nat.max n (length c))%nat
  | (Raise _, c') =>
      (length c + 9 < n)%nat /\ c' = c ++ map Str default_colours
  end.
Proof.
  pose proof (fill_colours_spec n default_colours c) as H.
  destruct (fill_colours n default_colours c) as [[u|e] c'].
  - destruct H as [H ->]; simpl in H; split; [exact H|]; split; [reflexivity|].
    rewrite length_app, length_map, length_firstn; simpl length; lia.
  - destruct H as (H & -> & _); simpl in H; split; [exact H | reflexivity].
Qed.

Lemma fill_fmt_spec rounds n fmt :
  (n - length fmt <= rounds)%nat ->
  fill_fmt rounds n fmt = fmt ++ repeat (Str ".") (n - length fmt).
Proof.
  revert fmt; induction rounds as [|k IH]; intros fmt H; simpl.
  - replace (n - length fmt)%nat with 0%nat by lia; simpl; now rewrite app_nil_r.
  - destruct (Nat.ltb_spec (length fmt) n) as [Hlt | Hge].
    + rewrite IH by (rewrite length_app; simpl; lia).
      rewrite length_app; simpl.
      replace (n - length fmt)%nat with (S (n - (length fmt + 1))) by lia.
      simpl; rewrite <- app_assoc; reflexivity.
    + replace (n - length fmt)%nat with 0%nat by lia; simpl; now rewrite app_nil_r.
Qed.

Lemma fill_colours_enough n defaults c :
  (n <= length c)%nat -> fill_colours n defaults c = (Ret tt, c).
Proof.
  intros H; destruct defaults; simpl;
    destruct (Nat.ltb_spec (length c) n); try lia; reflexivity.
Qed.

(** The lists of a [plot_config] are not touched by the checks: called with
    the arguments a configuration was built from, they hand back the colour
    and format lists as they were, whether they return or raise.  A preset
    is therefore never extended by plotting with it. *)
Theorem checks_keep_preset RTdata by_ conds words c fmt cfg :
  plot_config.__init__ conds words c fmt = Ret cfg ->
  snd (_plot_reading_times_checks RTdata by_ conds words c fmt) = (c, fmt).
Proof.
  unfold plot_config.__init__.
  destruct conds as [lconds|]; [|discriminate].
  destruct (forallb is_str lconds) eqn:H1; simpl negb; cbv iota; [|discriminate].
  destruct words as [w|]; [|discriminate].
  destruct c as [lc|]; [|discriminate].
  destruct (forallb is_str lc) eqn:H2; simpl negb; cbv iota; [|discriminate].
  destruct (Nat.eqb_spec (length lc) (length lconds)) as [L1|];
    simpl negb; cbv iota; [|discriminate].
  destruct fmt as [lfmt|]; [|discriminate].
  destruct (forallb is_str lfmt) eqn:H3; simpl negb; cbv iota; [|discriminate].
  destruct (Nat.eqb_spec (length lfmt) (length lconds)) as [L2|];
    simpl negb; cbv iota; [|discriminate].
  intros _; unfold _plot_reading_times_checks.
  destruct RTdata as [d|]; [|reflexivity].
  destruct (negb (_ || _)); [reflexivity|].
  destruct (negb (forallb _ w)); [reflexivity|].
  rewrite H2, H3; simpl negb; cbv iota.
  rewrite fill_colours_enough by lia.
  rewrite fill_fmt_spec by lia.
  replace (length lconds - length lfmt)%nat with 0%nat by lia; simpl repeat.
  rewrite app_nil_r.
  destruct (negb (forallb (is_condition d) lconds)); reflexivity.
Qed.

Lemma checks_keep_preset_witness :
  snd (_plot_reading_times_checks NotDF "PPT"
         (CC_list [Str "Control"; Str "Ambiguous"]) (W_dict [(2%Z, "Every"%string)])
         (CC_list [Str "blue"; Str "red"]) (CC_list [Str "-s"; Str "-^"]))
  = (CC_list [Str "blue"; Str "red"], CC_list [Str "-s"; Str "-^"]).
Proof.
  apply (checks_keep_preset NotDF "PPT" _ _ _ _
           (plot_config.mk ["Control"; "Ambiguous"]%string [(2%Z, "Every"%string)]
                           ["blue"; "red"]%string ["-s"; "-^"]%string)).
  reflexivity.
Defined.

(** When the checks return, the table is loaded, [by] is ['PPT'] or
    ['Item'], every condition occurs in the table, and the two lists hold
    what they held followed by default colours, respectively by ['.']
    formats: each has at least one entry per condition. *)
Theorem checks_return RTdata by_ conds words c fmt c' fmt' :
  _plot_reading_times_checks RTdata by_ conds words c fmt = (Ret tt, (c', fmt')) ->
  exists d lconds lc lfmt,
    RTdata = DF d /\ (by_ = "PPT"%string \/ by_ = "Item"%string) /\
    conds = CC_list lconds /\ c = CC_list lc /\ fmt = CC_list lfmt /\
    forallb (is_condition d) lconds = true /\
    c' = CC_list (lc ++ map Str (firstn (length lconds - length lc) default_colours)) /\
    fmt' = CC_list (lfmt ++ repeat (Str ".") (length lconds - length lfmt)) /\
    (length lconds <= list_length c')%nat /\
    (length lconds <= list_length fmt')%nat.
Proof.
  unfold _plot_reading_times_checks.
  destruct RTdata as [d|]; [|discriminate].
  destruct (String.eqb by_ "PPT" || String.eqb by_ "Item") eqn:Hby;
    simpl negb; cbv iota; [|discriminate].
  destruct conds as [lconds|]; [|discriminate].
  destruct words as [w|]; [|discriminate].
  destruct (negb (forallb _ w)); [discriminate|].
  destruct c as [lc|]; [|discriminate].
  destruct (negb (forallb is_str lc)); [discriminate|].
  pose proof (fill_colours_spec (length lconds) default_colours lc) as Hc.
  destruct (fill_colours (length lconds) default_colours lc) as [[u|e] lc'];
    [|discriminate].
  destruct Hc as [Hle ->].
  destruct fmt as [lfmt|]; [|discriminate].
  destruct (negb (forallb is_str lfmt)); [discriminate|].
  destruct (forallb (is_condition d) lconds) eqn:Hcond;
    simpl negb; cbv iota; [|discriminate].
  rewrite fill_fmt_spec by lia.
  intros [= <- <-].
  exists d, lconds, lc, lfmt.
  split; [reflexivity|]; split.
  { apply orb_true_iff in Hby as [H | H]; apply String.eqb_eq in H; auto. }
  do 3 (split; [reflexivity|]).
  split; [exact Hcond|].
  do 2 (split; [reflexivity|]).
  simpl list_length; simpl in Hle.
  rewrite !length_app, length_map, length_firstn, repeat_length; simpl length.
  split; lia.
Qed.

Lemma checks_return_witness :
  exists c' fmt',
    _plot_reading_times_checks (DF both_gaps) "PPT"
      (CC_list [Str "Crit"; Str "Filler"]) (W_dict [(2%Z, "Every"%string)])
      (CC_list [Str "black"]) (CC_list []) = (Ret tt, (c', fmt')) /\
    (2 <= list_length c')%nat.
Proof.
  do 2 eexists; split; [reflexivity|].
  destruct (checks_return (DF both_gaps) "PPT"
              (CC_list [Str "Crit"; Str "Filler"]) (W_dict [(2%Z, "Every"%string)])
              (CC_list [Str "black"]) (CC_list []) _ _ eq_refl)
    as (d & lconds & lc & lfmt & _ & _ & [= <-] & _ & _ & _ & _ & _ & H & _).
  exact H.
Defined.

Lemma in_labels_range d k :
  map index (rows d) = seq 0 (length (rows d)) ->
  in_labels d k = true <-> (0 <= k < Z.of_nat (length (rows d)))%Z.
Proof.
  intros Hl; unfold in_labels; rewrite existsb_exists; split.
  - intros (r & Hr & E); apply Z.eqb_eq in E.
    apply (in_map index) in Hr; rewrite Hl in Hr; apply in_seq in Hr; lia.
  - intros Hk.
    assert (Hin : In (Z.to_nat k) (map index (rows d)))
      by (rewrite Hl; apply in_seq; lia).
    apply in_map_iff in Hin as (r & E & Hr).
    exists r; split; [assumption|]; apply Z.eqb_eq; lia.
Qed.

(** The keys of [words] are looked up among the row labels of [RTdata], not
    among its word positions.  For a table labelled 0, 1, 2, ... (as
    [get_RTdata] leaves it) the checks raise the word-key [ValueError]
    exactly when some key is negative or not smaller than the number of
    rows, whatever word positions the table holds. *)
Theorem checks_word_keys d by_ lconds w c fmt :
  map index (rows d) = seq 0 (length (rows d)) ->
  by_ = "PPT"%string \/ by_ = "Item"%string ->
  (fst (_plot_reading_times_checks (DF d) by_ (CC_list lconds) (W_dict w) c fmt)
   = Raise (ValueError "One of the provided word keys is not in self.RTdata.")
   <->
   exists k v, In (k, v) w /\ ~ (0 <= k < Z.of_nat (length (rows d)))%Z).
Proof.
  intros Hl Hby.
  assert (Hb : negb (String.eqb by_ "PPT" || String.eqb by_ "Item") = false).
  { destruct Hby as [-> | ->]; reflexivity. }
  unfold _plot_reading_times_checks; rewrite Hb.
  destruct (forallb (fun kv => in_labels d (fst kv)) w) eqn:Hw; simpl negb; cbv iota.
  - split.
    + intros H; exfalso; revert H.
      destruct c as [lc|]; [|discriminate].
      destruct (negb (forallb is_str lc)); [discriminate|].
      pose proof (fill_colours_spec (length lconds) default_colours lc) as Hc.
      destruct (fill_colours (length lconds) default_colours lc) as [[u|e] lc'].
      * destruct fmt as [lfmt|]; [|discriminate].
        destruct (negb (forallb is_str lfmt)); [discriminate|].
        destruct (negb (forallb (is_condition d) lconds)); discriminate.
      * destruct Hc as (_ & _ & ->); discriminate.
    + intros (k & v & Hin & Hn); exfalso; apply Hn.
      rewrite forallb_forall in Hw.
      apply (in_labels_range d k Hl), (Hw (k, v) Hin).
  - split; [|reflexivity].
    intros _.
    assert (Hex : exists kv, In kv w /\ in_labels d (fst kv) = false).
    { clear -Hw; induction w as [|a t IH]; simpl in Hw; [discriminate|].
      apply andb_false_iff in Hw as [H | H].
      - exists a; split; [left; reflexivity | assumption].
      - destruct (IH H) as (kv & Hin & Hkv); exists kv; split; [right|]; assumption. }
    destruct Hex as ([k v] & Hin & Hkv); exists k, v; split; [assumption|].
    intros Hr; apply (in_labels_range d k Hl) in Hr; simpl in Hkv; congruence.
Qed.

(** A table of six rows whose word positions are all 1. *)
Lemma checks_word_keys_witness :
  fst (_plot_reading_times_checks (DF both_gaps) "PPT" (CC_list [Str "Crit"])
         (W_dict [(1%Z, "Every"%string); (6%Z, "tree"%string)])
         (CC_list []) (CC_list []))
  = Raise (ValueError "One of the provided word keys is not in self.RTdata.")
  <->
  exists k v, In (k, v) [(1%Z, "Every"%string); (6%Z, "tree"%string)] /\
              ~ (0 <= k < Z.of_nat (length (rows both_gaps)))%Z.
Proof.
  apply (checks_word_keys both_gaps "PPT"); [reflexivity | left; reflexivity].
Defined.

(** * The summary of the extreme-value filter *)

Lemma reported_at_most_removed low high rs :
  (count_band Below (map RTremove (map (extremes_row low high) rs)) +
   count_band Above (map RTremove (map (extremes_row low high) rs))
   <= length (filter (fun r => is_nan (RTremoveVal r))
                     (map (extremes_row low high) rs)))%nat.
Proof.
  unfold count_band; induction rs as [|r t IH]; simpl; [lia|].
  unfold removeExtremes, fgt, flt, cut_label.
  destruct (RT r) as [x|]; simpl; [|lia].
  destruct (Rlt_b 0 x); [|destruct (Rlt_b x high && Rlt_b low x); simpl; lia].
  destruct (Rle_b x low) eqn:E1.
  - apply Rle_b_true in E1.
    replace (Rlt_b low x) with false by (symmetry; apply Rlt_b_false; lra).
    rewrite andb_false_r; simpl; lia.
  - destruct (Rle_b x high) eqn:E2.
    + destruct (Rlt_b x high && Rlt_b low x); simpl; lia.
    + apply Rle_b_false in E2.
      replace (Rlt_b x high) with false by (symmetry; apply Rlt_b_false; lra).
      simpl; lia.
Qed.

(** The summary that the filter prints gives the number of rows labelled
    [Below], the number labelled [Above] and the number of rows of the
    table.  The two counts together never exceed the number of values the
    filter removed. *)
Theorem remove_extremes_summary df low high out log :
  _remove_extremes df low high = Ret (out, log) ->
  exists below above,
    log = [ExtremesSummary below above (length (rows out))] /\
    below = count_band Below (map RTremove (rows out)) /\
    above = count_band Above (map RTremove (rows out)) /\
    (below + above
     <= length (filter (fun r => is_nan (RTremoveVal r)) (rows out)))%nat.
Proof.
  intros E; apply remove_extremes_inv in E as (_ & -> & ->); simpl.
  do 2 eexists; split; [rewrite length_map; reflexivity|].
  assert (Hl : map RTremove (map (extremes_row low high) (rows df))
               = map (cut_label (Fin 0) low high) (map RT (rows df)))
    by (rewrite !map_map; reflexivity).
  rewrite <- Hl; split; [reflexivity|]; split; [reflexivity|].
  apply reported_at_most_removed.
Qed.

Lemma remove_extremes_summary_witness :
  exists below above log,
    log = [ExtremesSummary below above (length (rows scenario_A_filtered))] /\
    (below + above
     <= length (filter (fun r => is_nan (RTremoveVal r))
                       (rows scenario_A_filtered)))%nat.
Proof.
  destruct scenario_A_extremes as [log E].
  destruct (remove_extremes_summary _ _ _ _ _ E) as (b & a & H1 & _ & _ & H2).
  exists b, a, log; split; assumption.
Defined.
